(* ===================================================================== *)
(* ros: rosplay (bag player), rosdep OS detection, NodeHandle::param and  *)
(* the service-call test client, embedded as Rocq functions.             *)
(*                                                                       *)
(*   src/core/roscpp/include/ros/node_handle.h        Module NodeHandle  *)
(*   src/tools/rosdep/os.cpp                          Module Rosdep      *)
(*   src/test/test_roscpp/src/service_call_expect_b.cpp  Module SrvCall  *)
(*   src/tools/rosrecord/src/rosplay/rosplay.cpp      Module Rosplay     *)
(* ===================================================================== *)

From Stdlib Require Import ZArith QArith Qround Lia List Ascii String SpecFloat.
From stdpp Require Import gmap strings list.

Local Open Scope string_scope.
Local Open Scope Z_scope.
Local Open Scope list_scope.

(* ===================================================================== *)
(* NodeHandle::param (node_handle.h, lines 845-857)                      *)
(* ===================================================================== *)
Module NodeHandle.

(* The header only declares hasParam and getParam; their bodies talk to
   the parameter server.  They are the interface param is written
   against: each call may change the server-side state (another node can
   set or delete a key between the two calls), and getParam may write
   its out-parameter whether or not it reports success. *)
Class ParamClient (Server T : Type) := {
  hasParam : string -> Server -> bool * Server;
  getParam : string -> T -> Server -> bool * T * Server
}.

Section Param.
Context {Server T : Type} `{ParamClient Server T}.

(* template<typename T> void param(name, T& param_val, const T& default_val)
   The result is the final content of param_val and the server state. *)
Definition param (param_name : string) (param_val default_val : T)
           (s : Server) : T * Server :=
  let '(has, s1) := hasParam param_name s in
  if has then
    let '(got, v, s2) := getParam param_name param_val s1 in
    if got then (v, s2)            (* return; *)
    else (default_val, s2)         (* param_val = default_val; *)
  else (default_val, s1).
End Param.

(* A parameter server holding XML-RPC values, used to run param: a key can
   be present and still not be retrievable as an int. *)
Inductive XmlRpcValue :=
| XInt (i : Z)
| XString (s : string)
| XBool (b : bool).

Definition dict_hasParam (key : string) (d : gmap string XmlRpcValue)
  : bool * gmap string XmlRpcValue :=
  (bool_decide (is_Some (d !! key)), d).

Definition dict_getParam_int (key : string) (i : Z) (d : gmap string XmlRpcValue)
  : bool * Z * gmap string XmlRpcValue :=
  match d !! key with
  | Some (XInt v) => (true, v, d)
  | _ => (false, i, d)
  end.

#[export] Instance dict_int_client : ParamClient (gmap string XmlRpcValue) Z :=
  {| hasParam := dict_hasParam; getParam := dict_getParam_int |}.

Definition sample_server : gmap string XmlRpcValue :=
  <["rate" := XInt 10]> (<["frame" := XString "base"]> ∅).

End NodeHandle.

(* ===================================================================== *)
(* rosdep: OS::detect and OS::OS (os.cpp)                                 *)
(* ===================================================================== *)
Module Rosdep.

(* What detect can observe outside the process: rospack::file_exists, the
   two tokens fscanf("%50s %50s") reads from /etc/issue (None when fewer
   than two are read), the status of fclose, and the sw_vers pipe (None:
   popen failed; Some None: fgets read nothing; Some (Some s): one line). *)
Record FileSystem := {
  file_exists : string -> bool;
  issue_tokens : option (string * string);
  issue_fclose : Z;
  sw_vers_pipe : option (option string)
}.

Inductive fs_access :=
| FileExists (path : string)
| Fopen (path : string)
| Popen (cmd : string).

(* detect writes through two reference parameters (name, ver) and, in the
   /etc/issue and sw_vers branches, to the member `version`.  Each cell is
   None when detect left it alone and Some s when it assigned s. *)
Record Writes := {
  w_name : option string;
  w_ver : option string;
  w_version : option string
}.

Inductive outcome :=
| Return (b : bool)
| Throw (what : string).

Record Detect := {
  d_result : outcome;
  d_writes : Writes;
  d_log : list fs_access
}.

Definition sw_vers_cmd : string :=
  "sw_vers | grep 'ProductVersion' | grep -o '[0-9][0-9]*\.[0-9]*'".

(* os_ver[4] = 0; version = os_ver;  keeps at most four characters *)
Definition cut4 (os_ver : string) : string := String.substring 0 4 os_ver.

(* bool OS::detect(string &name, string &ver) *)
Definition detect (env : gmap string string) (fs : FileSystem) : Detect :=
  match env !! "ROSDEP_OS_NAME" with
  | Some override_os_name =>
      {| d_result := Return true;
         d_writes := {| w_name := Some override_os_name;
                        w_ver := env !! "ROSDEP_OS_VERSION";
                        w_version := None |};
         d_log := [] |}
  | None =>
      if file_exists fs "/etc/arch-release" then
        {| d_result := Return true;
           d_writes := {| w_name := Some "arch"; w_ver := None; w_version := None |};
           d_log := [FileExists "/etc/arch-release"] |}
      else if file_exists fs "/etc/issue" then
        let log := [FileExists "/etc/arch-release"; FileExists "/etc/issue";
                    Fopen "/etc/issue"] in
        match issue_tokens fs with
        | None =>
            {| d_result := Throw "couldn't parse /etc/issue";
               d_writes := {| w_name := None; w_ver := None; w_version := None |};
               d_log := log |}
        | Some (os_name, os_ver) =>
            if negb (Z.eqb (issue_fclose fs) 0) then
              {| d_result := Throw "couldn't parse /etc/issue";
                 d_writes := {| w_name := None; w_ver := None; w_version := None |};
                 d_log := log |}
            else if String.eqb os_name "Ubuntu" then
              {| d_result := Return true;
                 d_writes := {| w_name := Some "ubuntu"; w_ver := None;
                                w_version := Some (cut4 os_ver) |};
                 d_log := log |}
            else
              {| d_result := Throw "/etc/issue wasn't ubuntu. need to fix rosdep.";
                 d_writes := {| w_name := None; w_ver := None; w_version := None |};
                 d_log := log |}
        end
      else if file_exists fs "/usr/bin/sw_vers" then
        let log := [FileExists "/etc/arch-release"; FileExists "/etc/issue";
                    FileExists "/usr/bin/sw_vers"; Popen sw_vers_cmd] in
        match sw_vers_pipe fs with
        | None =>
            {| d_result := Throw "couldn't get output of sw_vers";
               d_writes := {| w_name := Some "macports"; w_ver := None; w_version := None |};
               d_log := log |}
        | Some None =>
            {| d_result := Throw "no response from sw_vers";
               d_writes := {| w_name := Some "macports"; w_ver := None; w_version := None |};
               d_log := log |}
        | Some (Some sw_pipe_response) =>
            {| d_result := Return true;
               d_writes := {| w_name := Some "macports"; w_ver := None;
                              w_version := Some sw_pipe_response |};
               d_log := log |}
        end
      else
        {| d_result := Return false;
           d_writes := {| w_name := Some "unknown"; w_ver := None; w_version := None |};
           d_log := [FileExists "/etc/arch-release"; FileExists "/etc/issue";
                     FileExists "/usr/bin/sw_vers"] |}
  end.

(* The object after construction. *)
Record OS := { name : string; version : string }.

Definition assign (cell : string) (w : option string) : string :=
  match w with Some s => s | None => cell end.

(* OS::OS() : name("unknown") { if (!detect(name, version)) throw ... }
   Both reference parameters are bound to members, so `ver` and `version`
   are the same cell; detect assigns at most one of them on any path. *)
Definition OS_new (env : gmap string string) (fs : FileSystem) : OS + string :=
  let d := detect env fs in
  let o := {| name := assign "unknown" (w_name (d_writes d));
              version := assign (assign "" (w_ver (d_writes d)))
                                (w_version (d_writes d)) |} in
  match d_result d with
  | Return true => inl o
  | Return false => inr "couldn't detect this OS"
  | Throw what => inr what
  end.

Definition no_files : FileSystem :=
  {| file_exists := fun _ => false; issue_tokens := None;
     issue_fclose := 0; sw_vers_pipe := None |}.

Definition ubuntu_files : FileSystem :=
  {| file_exists := fun p => String.eqb p "/etc/issue";
     issue_tokens := Some ("Ubuntu", "8.04.1");
     issue_fclose := 0; sw_vers_pipe := None |}.

(* --------------------------------------------------------------------- *)
(* OS::generate_bash                                                      *)
(* --------------------------------------------------------------------- *)

(* "\n" *)
Definition LF : string := String (Ascii.ascii_of_nat 10) EmptyString.

(* "#!/bin/bash\nset -o errexit\nset -o verbose\n\n" *)
Definition bash_header : string :=
  String.append "#!/bin/bash"
    (String.append LF
       (String.append "set -o errexit"
          (String.append LF (String.append "set -o verbose" (String.append LF LF))))).

Definition port_cmd : string := "port installed | grep -o '^  [a-zA-Z0-9_-]*' ".

(* One line of the pipe, as grep prints it for a port: two blanks, the
   name, a newline. *)
Definition port_line (port : string) : string :=
  String.append "  " (String.append port LF).

(* if (strlen(installed) > 0) installed[strlen(installed)-1] = 0; *)
Definition chop (installed : string) : string :=
  String.substring 0 (String.length installed - 1) installed.

(* string(installed + 2), after the newline is blown away.  Lines of the
   pipe have the two leading blanks of the grep pattern; on a shorter
   line the source reads what an earlier line left in the buffer, which
   is not modelled (the empty string here). *)
Definition port_of_line (installed : string) : string :=
  String.substring 2 (String.length (chop installed) - 2) (chop installed).

(* The for loop over pkgs: erase the first element equal to x, and break. *)
Fixpoint erase_first (x : string) (pkgs : list string) : list string :=
  match pkgs with
  | [] => []
  | p :: pkgs' => if String.eqb p x then pkgs' else p :: erase_first x pkgs'
  end.

(* The while loop over the lines fgets reads from the pipe. *)
Definition scrape (lines : list string) (pkgs : list string) : list string :=
  fold_left (fun pkgs' installed => erase_first (port_of_line installed) pkgs')
            lines pkgs.

Definition install_command (os_name : string) : string :=
  if String.eqb os_name "arch" then "sudo pacman --needed -S"
  else if String.eqb os_name "ubuntu" then "sudo apt-get -y install"
  else if String.eqb os_name "macports" then "sudo port install"
  else EmptyString.

(* The for loop that appends a blank and the package to bash, for each
   package. *)
Definition add_packages (bash : string) (pkgs : list string) : string :=
  fold_left (fun b p => String.append b (String.append " " p)) pkgs bash.

(* string OS::generate_bash(vector<string> pkgs, const string &verbatim_bash)
   port_pipe is what popen gives: None when it fails, else the lines fgets
   reads and whether reading stops on an error rather than at end of
   file.  inr is the runtime_error thrown. *)
Definition generate_bash (os : OS) (port_pipe : option (list string * bool))
           (pkgs : list string) (verbatim_bash : string) : string + string :=
  let scraped : list string + string :=
    if String.eqb (name os) "macports" then
      match port_pipe with
      | None => inr "couldn't get the installed ports"
      | Some (lines, read_error) =>
          if read_error then inr "error reading from port command"
          else inl (scrape lines pkgs)
      end
    else inl pkgs in
  match scraped with
  | inr what => inr what
  | inl pkgs' =>
      let bash :=
        match pkgs' with
        | [] => bash_header
        | _ :: _ =>
            String.append
              (add_packages (String.append bash_header (install_command (name os))) pkgs')
              (String.append LF LF)
        end in
      inl (String.append bash verbatim_bash)
  end.

(* The text the install line should carry for the packages. *)
Fixpoint package_words (pkgs : list string) : string :=
  match pkgs with
  | [] => EmptyString
  | p :: pkgs' => String.append " " (String.append p (package_words pkgs'))
  end.

(* What generate_bash returns once the packages to install are known. *)
Definition script (os_name : string) (pkgs : list string) (verbatim_bash : string)
  : string :=
  String.append bash_header
    (String.append
       match pkgs with
       | [] => EmptyString
       | _ :: _ =>
           String.append (install_command os_name)
             (String.append (package_words pkgs) (String.append LF LF))
       end
       verbatim_bash).

Definition debian_files : FileSystem :=
  {| file_exists := fun p => (String.eqb p "/etc/issue" || String.eqb p "/usr/bin/sw_vers")%bool;
     issue_tokens := Some ("Debian", "GNU/Linux");
     issue_fclose := 0; sw_vers_pipe := Some (Some "10.5") |}.

Definition arch_files : FileSystem :=
  {| file_exists := fun _ => true;
     issue_tokens := Some ("Ubuntu", "8.04.1");
     issue_fclose := 0; sw_vers_pipe := Some (Some "10.5") |}.

End Rosdep.

(* ===================================================================== *)
(* TEST(SrvCall, callSrv) (service_call_expect_b.cpp)                    *)
(* ===================================================================== *)
Module SrvCall.

(* The node as the test sees it: the k-th call of getParam(key, int&)
   (k counts the calls made so far) and ros::service::call on a
   TestStringString request, None when the call returns false. *)
Record Ros := {
  getParam : nat -> string -> option Z;
  call : string -> string -> option string
}.

Inductive event :=
| GetParam (key : string)
| Usleep (usec : Z)
| Call (service req_str : string).

Inductive verdict :=
| Passed
| FailedAssertTrue      (* ASSERT_TRUE(call_result) *)
| FailedAssertStreq.    (* ASSERT_STREQ(res.str.c_str(), "B") *)

(* std::string::c_str() read as a C string: everything before the first
   NUL character. *)
Fixpoint c_str (s : string) : string :=
  match s with
  | EmptyString => EmptyString
  | String c s' => if Ascii.eqb c "000"%char then EmptyString else String c (c_str s')
  end.

(* while(!g_n->getParam("advertisers_ready", param)) usleep(100000);
   k is the number of getParam calls already made; the loop has no bound
   in the source, the fuel bounds the number of polls of the model. *)
Fixpoint wait_ready (ros : Ros) (fuel k : nat) : option (list event) :=
  match fuel with
  | O => None
  | S fuel' =>
      match getParam ros k "advertisers_ready" with
      | Some _ => Some [GetParam "advertisers_ready"]
      | None =>
          match wait_ready ros fuel' (S k) with
          | Some tr => Some (GetParam "advertisers_ready" :: Usleep 100000 :: tr)
          | None => None
          end
      end
  end.

Definition callSrv (ros : Ros) (fuel : nat) : option (verdict * list event) :=
  let req_str := "nothing" in
  match wait_ready ros fuel 0 with
  | None => None
  | Some tr =>
      let tr' := tr ++ [Call "service_adv" req_str] in
      match call ros "service_adv" req_str with
      | None => Some (FailedAssertTrue, tr')
      | Some res_str =>
          if String.eqb (c_str res_str) "B" then Some (Passed, tr')
          else Some (FailedAssertStreq, tr')
      end
  end.

(* k failed polls, each followed by the sleep *)
Fixpoint polls (k : nat) : list event :=
  match k with
  | O => []
  | S k' => GetParam "advertisers_ready" :: Usleep 100000 :: polls k'
  end.

(* The advertiser of the fixture: the parameter appears at the third poll
   and service_adv answers "B" to anything. *)
Definition fixture : Ros :=
  {| getParam := fun k key =>
       if (String.eqb key "advertisers_ready" && Nat.leb 2 k)%bool then Some 1 else None;
     call := fun service _ =>
       if String.eqb service "service_adv" then Some "B" else None |}.

End SrvCall.

(* ===================================================================== *)
(* rosplay (rosplay.cpp)                                                  *)
(* ===================================================================== *)
Module Rosplay.

(* --------------------------------------------------------------------- *)
(* <termios.h>: the settings of the terminal behind stdin.  The constants *)
(* are the Linux ones; tcflag_t is an unsigned 32-bit word and c_cc an    *)
(* array of NCCS = 32 control characters.                                 *)
(* --------------------------------------------------------------------- *)
Record termios := {
  c_iflag : Z;
  c_oflag : Z;
  c_cflag : Z;
  c_lflag : Z;
  c_line : Z;
  c_cc : list Z;
  c_ispeed : Z;
  c_ospeed : Z
}.

Definition ICANON : Z := 2.     (* 0000002, bit 1 of c_lflag *)
Definition ECHO : Z := 8.       (* 0000010, bit 3 of c_lflag *)
Definition VTIME : nat := 5.
Definition VMIN : nat := 6.

(* flags = orig_flags_;
   flags.c_lflag &= ~ICANON;  flags.c_cc[VMIN] = 0;  flags.c_cc[VTIME] = 0; *)
Definition raw_flags (orig_flags_ : termios) : termios :=
  {| c_iflag := c_iflag orig_flags_;
     c_oflag := c_oflag orig_flags_;
     c_cflag := c_cflag orig_flags_;
     c_lflag := Z.land (c_lflag orig_flags_) (Z.lnot ICANON);
     c_line := c_line orig_flags_;
     c_cc := <[VTIME := 0]> (<[VMIN := 0]> (c_cc orig_flags_));
     c_ispeed := c_ispeed orig_flags_;
     c_ospeed := c_ospeed orig_flags_ |}.

(* A terminal in the usual line-editing mode: ISIG|ICANON|ECHO|ECHOE|ECHOK|
   IEXTEN|ECHOCTL|ECHOKE in c_lflag, VMIN = 1. *)
Definition cooked_tty : termios :=
  {| c_iflag := 0x4500; c_oflag := 0x5; c_cflag := 0xbf; c_lflag := 0x8a3b;
     c_line := 0;
     c_cc := [3; 28; 127; 21; 4; 0; 1; 0; 17; 19; 26; 0; 18; 15; 23; 22;
              0; 0; 0; 0; 0; 0; 0; 0; 0; 0; 0; 0; 0; 0; 0; 0];
     c_ispeed := 15; c_ospeed := 15 |}.

(* --------------------------------------------------------------------- *)
(* C library: getopt(3), atoi, atof, char conversion                      *)
(* --------------------------------------------------------------------- *)

(* What one call of getopt returns: an option character of optstring with
   its optarg, or '?' after a diagnostic on stderr (unknown option
   character, or a missing argument). *)
Inductive optev :=
| Opt (c : ascii) (optarg : option string)
| BadOpt (c : ascii).

(* Some true: c is in optstring and followed by ':' (takes an argument). *)
Fixpoint opt_lookup (optstring : string) (c : ascii) : option bool :=
  match optstring with
  | EmptyString => None
  | String o rest =>
      if (Ascii.eqb o c && negb (Ascii.eqb c ":"))%bool
      then Some (match rest with String ":" _ => true | _ => false end)
      else opt_lookup rest c
  end.

Inductive cluster_end :=
| NoPending
| NeedArg (c : ascii).

(* The characters after the '-' of one argv element. *)
Fixpoint scan_cluster (optstring : string) (s : string) : list optev * cluster_end :=
  match s with
  | EmptyString => ([], NoPending)
  | String c s' =>
      match opt_lookup optstring c with
      | None =>
          let (evs, e) := scan_cluster optstring s' in (BadOpt c :: evs, e)
      | Some false =>
          let (evs, e) := scan_cluster optstring s' in (Opt c None :: evs, e)
      | Some true =>
          match s' with
          | EmptyString => ([], NeedArg c)
          | _ => ([Opt c (Some s')], NoPending)
          end
      end
  end.

Definition is_option (a : string) : bool :=
  match a with
  | String "-" (String _ _) => true
  | _ => false
  end.

(* All the calls of getopt(argc, argv, optstring) until it returns -1, over
   argv[1..]: the values returned, in order, and argv[optind..argc-1] as
   left at the end.  posix = true is the scan that stops at the first
   operand (POSIXLY_CORRECT, BSD); posix = false is glibc's default, which
   moves operands behind the options and scans on.  "--" ends the options
   in both. *)
Fixpoint getopt_scan (posix : bool) (optstring : string) (args : list string)
  : list optev * list string :=
  match args with
  | [] => ([], [])
  | a :: rest =>
      if String.eqb a "--" then ([], rest)
      else if is_option a then
        match scan_cluster optstring (String.substring 1 (String.length a) a) with
        | (evs, NoPending) =>
            let (evs', operands) := getopt_scan posix optstring rest in
            (evs ++ evs', operands)
        | (evs, NeedArg c) =>
            match rest with
            | [] => (evs ++ [BadOpt c], [])
            | b :: rest' =>
                let (evs', operands) := getopt_scan posix optstring rest' in
                (evs ++ Opt c (Some b) :: evs', operands)
            end
        end
      else if posix then ([], a :: rest)
      else
        let (evs, operands) := getopt_scan posix optstring rest in
        (evs, a :: operands)
  end.

Definition is_space (c : ascii) : bool :=
  let n := nat_of_ascii c in
  (Nat.eqb n 32 || (Nat.leb 9 n && Nat.leb n 13))%bool.

Definition digit_of (c : ascii) : option Z :=
  let n := Z.of_nat (nat_of_ascii c) in
  if ((48 <=? n) && (n <=? 57))%bool then Some (n - 48) else None.

Fixpoint skip_spaces (s : string) : string :=
  match s with
  | String c s' => if is_space c then skip_spaces s' else s
  | EmptyString => s
  end.

(* The leading decimal digits of s on top of acc, and what follows them. *)
Fixpoint digits (acc : Z) (s : string) : Z * string :=
  match s with
  | String c s' =>
      match digit_of c with
      | Some d => digits (10 * acc + d) s'
      | None => (acc, s)
      end
  | EmptyString => (acc, s)
  end.

Definition split_sign (s : string) : bool * string :=
  match s with
  | String "-" s' => (true, s')
  | String "+" s' => (false, s')
  | _ => (false, s)
  end.

Definition to_int32 (z : Z) : Z := (z + 2 ^ 31) mod 2 ^ 32 - 2 ^ 31.
Definition to_uint32 (z : Z) : Z := z mod 2 ^ 32.
Definition to_uint64 (z : Z) : Z := z mod 2 ^ 64.
Definition to_int64 (z : Z) : Z := (z + 2 ^ 63) mod 2 ^ 64 - 2 ^ 63.

(* atoi: blanks, a sign, decimal digits; 0 when there are none. *)
Definition atoi (s : string) : Z :=
  let (neg, s1) := split_sign (skip_spaces s) in
  let (n, _) := digits 0 s1 in
  to_int32 (if neg then - n else n).

(* A C double (IEEE 754 binary64) and a C float (binary32), as values of
   the Standard Library's specification of floating-point arithmetic. *)
Definition double := spec_float.
Definition float := spec_float.

(* What strtod reads before it rounds: an exact quotient num / den with
   its sign, or one of the special values. *)
Inductive reading :=
| Finite (neg : bool) (num : Z) (den : positive)
| Infinite (neg : bool)
| NotANumber.

(* The nearest value of the format to what was read, ties to even; beyond
   the largest value an infinity, below the smallest a zero. *)
Definition nearest (prec emax : Z) (r : reading) : spec_float :=
  match r with
  | Finite neg (Zpos n) den =>
      SFdiv prec emax (S754_finite neg n 0) (S754_finite false den 0)
  | Finite neg _ _ => S754_zero neg
  | Infinite neg => S754_infinity neg
  | NotANumber => S754_nan
  end.

(* (float) d *)
Definition to_float (d : double) : float :=
  match d with
  | S754_finite s m e => binary_round 24 128 s m e
  | _ => d
  end.

(* The number a double or a float stands for, in lowest terms; an infinity
   and NaN stand for none and give 0. *)
Definition Qvalue (x : spec_float) : Q :=
  match x with
  | S754_finite s m e =>
      let n := if s then Z.neg m else Z.pos m in
      if 0 <=? e then inject_Z (n * 2 ^ e)
      else Qred (Qmake n (Z.to_pos (2 ^ (- e))))
  | _ => 0%Q
  end.

Definition lower (c : ascii) : ascii :=
  let n := nat_of_ascii c in
  if (Nat.leb 65 n && Nat.leb n 90)%bool then ascii_of_nat (n + 32) else c.

(* s without its leading p (given in lower case), letters compared without
   regard to case. *)
Fixpoint strip_nocase (p s : string) : option string :=
  match p, s with
  | EmptyString, _ => Some s
  | String a p', String b s' =>
      if Ascii.eqb a (lower b) then strip_nocase p' s' else None
  | String _ _, EmptyString => None
  end.

Definition hex_digit_of (c : ascii) : option Z :=
  let n := Z.of_nat (nat_of_ascii c) in
  if ((48 <=? n) && (n <=? 57))%bool then Some (n - 48)
  else if ((97 <=? n) && (n <=? 102))%bool then Some (n - 87)
  else if ((65 <=? n) && (n <=? 70))%bool then Some (n - 55)
  else None.

(* The leading digits of s on top of acc, their number on top of k, and
   what follows them. *)
Fixpoint digit_run (base : Z) (digit : ascii -> option Z) (acc k : Z) (s : string)
  : Z * Z * string :=
  match s with
  | String c s' =>
      match digit c with
      | Some d => digit_run base digit (base * acc + d) (k + 1) s'
      | None => (acc, k, s)
      end
  | EmptyString => (acc, k, s)
  end.

(* Digits with at most one '.' among them: the digits as one integer, how
   many they are, how many of them follow the '.', and the rest. *)
Definition mantissa (base : Z) (digit : ascii -> option Z) (s : string)
  : Z * Z * Z * string :=
  let '(n, k, s1) := digit_run base digit 0 0 s in
  match s1 with
  | String "." s2 =>
      let '(n', f, s3) := digit_run base digit n 0 s2 in (n', k + f, f, s3)
  | _ => (n, k, 0, s1)
  end.

(* An exponent: the marker in either case, a sign, decimal digits; 0 when
   s does not start with one. *)
Definition exponent_part (marker : ascii) (s : string) : Z :=
  match s with
  | String c s1 =>
      if Ascii.eqb (lower c) marker then
        let (neg, s2) := split_sign s1 in
        let '(x, _, _) := digit_run 10 digit_of 0 0 s2 in
        if neg then - x else x
      else 0
  | EmptyString => 0
  end.

(* mant * b ^ x *)
Definition scaled (neg : bool) (mant b x : Z) : reading :=
  if 0 <=? x then Finite neg (mant * b ^ x) 1
  else Finite neg mant (Z.to_pos (b ^ (- x))).

(* "0x" or "0X" and a hexadecimal mantissa of at least one digit. *)
Definition hex_mantissa (s : string) : option (Z * Z * string) :=
  match s with
  | String "0" (String x s') =>
      if Ascii.eqb (lower x) "x" then
        let '(m, k, f, rest) := mantissa 16 hex_digit_of s' in
        if 0 <? k then Some (m, f, rest) else None
      else None
  | _ => None
  end.

(* The subject sequence of strtod: blanks, a sign, then "inf" or
   "infinity", or "nan", or a hexadecimal number with a binary exponent, or
   a decimal number with a decimal exponent; 0 when there is none. *)
Definition strtod (s : string) : reading :=
  let (neg, s1) := split_sign (skip_spaces s) in
  match strip_nocase "inf" s1, strip_nocase "nan" s1, hex_mantissa s1 with
  | Some _, _, _ => Infinite neg
  | None, Some _, _ => NotANumber
  | None, None, Some (m, f, rest) =>
      scaled neg m 2 (exponent_part "p" rest - 4 * f)
  | None, None, None =>
      let '(m, k, f, rest) := mantissa 10 digit_of s1 in
      if 0 <? k then scaled neg m 10 (exponent_part "e" rest - f)
      else Finite false 0 1
  end.

(* atof(s) is strtod(s, NULL): the double nearest to the number read. *)
Definition atof (s : string) : double := nearest 53 1024 (strtod s).

(* (unsigned int)(1000000.0 * x): the product as a double, its fraction
   cut off.  C leaves the conversion undefined when unsigned int cannot
   hold the value: it wraps here, and a product that is not finite
   gives 0. *)
Definition usec_of (x : double) : Z :=
  let y := Qvalue (SFmul 53 1024 (nearest 53 1024 (Finite false 1000000 1)) x) in
  to_uint32 (Z.quot (Qnum y) (Z.pos (Qden y))).

(* char c = getchar();  getchar returns -1 (EOF) or an unsigned char value,
   and char is signed on the platforms rosplay is built for, so 255 also
   reads as EOF in the switch. *)
Definition to_char (k : Z) : Z := (k + 128) mod 256 - 128.
Definition EOF : Z := -1.

(* --------------------------------------------------------------------- *)
(* Bags, the node and the recorded-stream player                          *)
(* --------------------------------------------------------------------- *)

(* Times and durations are counts of nanoseconds (Time::toNSec). *)

(* One recorded message: what the handlers get as (name, m, ..., time
   recorded), with m answering __getDataType and __getMD5Sum. *)
Record Envelope := {
  topic : string;
  datatype : string;
  md5sum : string;
  payload : list Byte.byte;
  record_time : Z
}.

(* The machine rosplay runs on. *)
Record Machine := {
  posix : bool;                              (* getopt stops at the first operand *)
  files : string -> option (list Envelope);  (* the bag files that can be opened *)
  clock : nat -> Z;                          (* k-th reading of gettimeofday *)
  stdin_keys : list Z;                       (* successive results of getchar *)
  stdin_tty : termios                        (* terminal settings at start *)
}.

(* struct BagContent; count is an int *)
Record BagContent := {
  bc_datatype : string;
  bc_md5sum : string;
  count : Z
}.

Inductive event :=
| Stderr (text : string)
| Stdout (text : string)
| RosInfo (text : string)
| GetoptError (c : ascii)
| RosInit
| NodeCreate (name : string)
| Shutdown
| Tcsetattr (flags : termios)
| Usleep (usec : Z)
| PlayerOpen (bags : list string) (start : Z) (time_scale : Q) (ok : bool)
| BagTimeInitialize (hz : Z) (time_scale : double)
| StepTime (t : Z)
| StartTime (t : Z)
| FreezeTime
| SetHorizon (t : Z)
| Advertise (name : string) (queue_size : Z) (fresh : bool)
| Publish (name : string) (m : Envelope)
(* the printf lines at the end of check mode: bag, start_time, end_time,
   length, and name/datatype/md5sum/count for each entry of g_content *)
| CheckReport (bag : string) (start_time end_time length : Z)
              (topics : gmap string BagContent).

(* What changes while the program runs: the node singleton, the terminal,
   the number of clock readings taken and everything done so far (latest
   first). *)
Record World := {
  node_ok : bool;
  advertised : gset string;
  tty : termios;
  ticks : nat;
  trace : list event
}.

Definition emit (ev : event) (w : World) : World :=
  {| node_ok := node_ok w; advertised := advertised w; tty := tty w;
     ticks := ticks w; trace := ev :: trace w |}.

Definition emit_if (b : bool) (ev : event) (w : World) : World :=
  if b then emit ev w else w.

(* ros::Node::instance()->shutdown() *)
Definition shutdown (w : World) : World :=
  {| node_ok := false; advertised := advertised w; tty := tty w;
     ticks := ticks w; trace := Shutdown :: trace w |}.

(* tcsetattr(fd, TCSANOW, &flags) *)
Definition tcsetattr (flags : termios) (w : World) : World :=
  {| node_ok := node_ok w; advertised := advertised w; tty := flags;
     ticks := ticks w; trace := Tcsetattr flags :: trace w |}.

(* Time RosPlay::getSysTime() *)
Definition getSysTime (m : Machine) (w : World) : Z * World :=
  (clock m (ticks w),
   {| node_ok := node_ok w; advertised := advertised w; tty := tty w;
      ticks := S (ticks w); trace := trace w |}).

(** Modelled from the spec: ros::Node::advertise(name, msg, queue_size) is
   declared in ros/node.h, which is not part of the sources.  Section 4.8,
   step 2: "If topic not yet advertised on this run, advertise it"; the
   call answers true exactly for a topic that was not advertised before. *)
Definition advertise (name : string) (queue_size : Z) (w : World) : bool * World :=
  let fresh := bool_decide (name ∉ advertised w) in
  (fresh,
   {| node_ok := node_ok w; advertised := {[name]} ∪ advertised w; tty := tty w;
      ticks := ticks w; trace := Advertise name queue_size fresh :: trace w |}).

(** Modelled from the spec: ros::record::Player and MultiPlayer are declared
   in rosrecord/Player.h and MultiPlayer.h, which are not part of the
   sources.  Section 3, "Bag player state": ordered sequence of envelopes,
   cursor, time_scale multiplier, shift offsets; section 4.8 for play_time.
   The cursor (the envelopes still to be read) is passed next to this
   record. *)
Record Player := {
  p_opened : bool;
  p_handler : bool;         (* addHandler<AnyMsg>("*", ...) was called *)
  p_wall_start : Z;
  p_time_scale : Q;
  p_first_record_time : Z;
  p_shift : Z
}.

Definition closed_player : Player :=
  {| p_opened := false; p_handler := false; p_wall_start := 0;
     p_time_scale := 1%Q; p_first_record_time := 0; p_shift := 0 |}.

(** Modelled from the spec: section 4.8,
   play_time(env) = wall_start + (env.record_time - first_record_time)
                    / time_scale + cumulative_shift,
   with the quotient taken exactly and rounded down to a nanosecond. *)
Definition play_time (p : Player) (e : Envelope) : Z :=
  p_wall_start p
  + Qfloor (Qdiv (inject_Z (record_time e - p_first_record_time p)) (p_time_scale p))
  + p_shift p.

(** Modelled from the spec: section 4.8, "a merged iterator yielding
   envelopes in non-decreasing record_time"; on equal times the envelope of
   the earlier bag comes first. *)
Fixpoint insert_by_time (e : Envelope) (l : list Envelope) : list Envelope :=
  match l with
  | [] => [e]
  | x :: l' =>
      if record_time e <? record_time x then e :: l
      else x :: insert_by_time e l'
  end.

Definition merge_envelopes (later earlier : list Envelope) : list Envelope :=
  fold_right insert_by_time earlier (rev later).

(** Modelled from the spec: section 4.8, `bags`: ordered sequence of input
   bag file handles, read through the merged iterator.  The spec does not
   say what open answers when one of several files is missing; the player
   counts as open when every file could be opened. *)
Fixpoint read_bags (m : Machine) (bags : list string) : option (list Envelope) :=
  match bags with
  | [] => Some []
  | b :: bags' =>
      match files m b, read_bags m bags' with
      | Some es, Some rest => Some (merge_envelopes rest es)
      | _, _ => None
      end
  end.

Definition first_record_time (es : list Envelope) : Z :=
  match es with
  | e :: _ => record_time e
  | [] => 0
  end.

(** Modelled from the spec: player.open(bags, start_time, time_scale), with
   wall_start, time_scale and first_record_time of section 4.8 (and of
   section 6, recorded-log framing (c)) and no shift yet.  A player that
   failed to open has nothing to read. *)
Definition player_open (m : Machine) (bags : list string) (start_time : Z)
           (time_scale : Q) : Player * list Envelope :=
  match read_bags m bags with
  | Some es =>
      ({| p_opened := true; p_handler := false; p_wall_start := start_time;
          p_time_scale := time_scale; p_first_record_time := first_record_time es;
          p_shift := 0 |}, es)
  | None => (closed_player, [])
  end.

Definition addHandler (p : Player) : Player :=
  {| p_opened := p_opened p; p_handler := true; p_wall_start := p_wall_start p;
     p_time_scale := p_time_scale p; p_first_record_time := p_first_record_time p;
     p_shift := p_shift p |}.

(** Modelled from the spec: player.shiftTime(shift) adds to the cumulative
   shift of section 4.8. *)
Definition shiftTime (shift : Z) (p : Player) : Player :=
  {| p_opened := p_opened p; p_handler := p_handler p; p_wall_start := p_wall_start p;
     p_time_scale := p_time_scale p; p_first_record_time := p_first_record_time p;
     p_shift := p_shift p + shift |}.

(* Duration().fromSec(d): whole nanoseconds, rounded down. *)
Definition fromSec (d : Q) : Z := Qfloor (Qmult d (inject_Z 1000000000)).

(* --------------------------------------------------------------------- *)
(* class RosPlay                                                          *)
(* --------------------------------------------------------------------- *)

(* The members the constructor and doPublish use (the class itself is
   declared in rosrecord/rosplay.h).  bag_time_frequency_, start_time_ and
   paused_time_ have no initialiser in the source; they are 0 here until
   assigned. *)
Record RosPlay := {
  bag_time_initialized_ : bool;
  at_once_ : bool;
  quiet_ : bool;
  paused_ : bool;
  shifted_ : bool;
  bag_time_ : bool;
  time_scale_ : double;
  queue_size_ : Z;
  bag_time_frequency_ : Z;
  advertise_sleep_ : Z;
  start_time_ : Z;
  requested_start_time_ : Z;
  paused_time_ : Z;
  orig_flags_ : termios;
  player_ : Player
}.

Definition set_bag_time_initialized (v : bool) (rp : RosPlay) : RosPlay :=
  {| bag_time_initialized_ := v; at_once_ := at_once_ rp; quiet_ := quiet_ rp;
     paused_ := paused_ rp; shifted_ := shifted_ rp; bag_time_ := bag_time_ rp;
     time_scale_ := time_scale_ rp; queue_size_ := queue_size_ rp;
     bag_time_frequency_ := bag_time_frequency_ rp;
     advertise_sleep_ := advertise_sleep_ rp; start_time_ := start_time_ rp;
     requested_start_time_ := requested_start_time_ rp;
     paused_time_ := paused_time_ rp; orig_flags_ := orig_flags_ rp;
     player_ := player_ rp |}.

Definition set_at_once (v : bool) (rp : RosPlay) : RosPlay :=
  {| bag_time_initialized_ := bag_time_initialized_ rp; at_once_ := v;
     quiet_ := quiet_ rp; paused_ := paused_ rp; shifted_ := shifted_ rp;
     bag_time_ := bag_time_ rp; time_scale_ := time_scale_ rp;
     queue_size_ := queue_size_ rp; bag_time_frequency_ := bag_time_frequency_ rp;
     advertise_sleep_ := advertise_sleep_ rp; start_time_ := start_time_ rp;
     requested_start_time_ := requested_start_time_ rp;
     paused_time_ := paused_time_ rp; orig_flags_ := orig_flags_ rp;
     player_ := player_ rp |}.

Definition set_quiet (v : bool) (rp : RosPlay) : RosPlay :=
  {| bag_time_initialized_ := bag_time_initialized_ rp; at_once_ := at_once_ rp;
     quiet_ := v; paused_ := paused_ rp; shifted_ := shifted_ rp;
     bag_time_ := bag_time_ rp; time_scale_ := time_scale_ rp;
     queue_size_ := queue_size_ rp; bag_time_frequency_ := bag_time_frequency_ rp;
     advertise_sleep_ := advertise_sleep_ rp; start_time_ := start_time_ rp;
     requested_start_time_ := requested_start_time_ rp;
     paused_time_ := paused_time_ rp; orig_flags_ := orig_flags_ rp;
     player_ := player_ rp |}.

Definition set_paused (v : bool) (rp : RosPlay) : RosPlay :=
  {| bag_time_initialized_ := bag_time_initialized_ rp; at_once_ := at_once_ rp;
     quiet_ := quiet_ rp; paused_ := v; shifted_ := shifted_ rp;
     bag_time_ := bag_time_ rp; time_scale_ := time_scale_ rp;
     queue_size_ := queue_size_ rp; bag_time_frequency_ := bag_time_frequency_ rp;
     advertise_sleep_ := advertise_sleep_ rp; start_time_ := start_time_ rp;
     requested_start_time_ := requested_start_time_ rp;
     paused_time_ := paused_time_ rp; orig_flags_ := orig_flags_ rp;
     player_ := player_ rp |}.

Definition set_shifted (v : bool) (rp : RosPlay) : RosPlay :=
  {| bag_time_initialized_ := bag_time_initialized_ rp; at_once_ := at_once_ rp;
     quiet_ := quiet_ rp; paused_ := paused_ rp; shifted_ := v;
     bag_time_ := bag_time_ rp; time_scale_ := time_scale_ rp;
     queue_size_ := queue_size_ rp; bag_time_frequency_ := bag_time_frequency_ rp;
     advertise_sleep_ := advertise_sleep_ rp; start_time_ := start_time_ rp;
     requested_start_time_ := requested_start_time_ rp;
     paused_time_ := paused_time_ rp; orig_flags_ := orig_flags_ rp;
     player_ := player_ rp |}.

Definition set_bag_time (v : bool) (rp : RosPlay) : RosPlay :=
  {| bag_time_initialized_ := bag_time_initialized_ rp; at_once_ := at_once_ rp;
     quiet_ := quiet_ rp; paused_ := paused_ rp; shifted_ := shifted_ rp;
     bag_time_ := v; time_scale_ := time_scale_ rp; queue_size_ := queue_size_ rp;
     bag_time_frequency_ := bag_time_frequency_ rp;
     advertise_sleep_ := advertise_sleep_ rp; start_time_ := start_time_ rp;
     requested_start_time_ := requested_start_time_ rp;
     paused_time_ := paused_time_ rp; orig_flags_ := orig_flags_ rp;
     player_ := player_ rp |}.

Definition set_time_scale (v : double) (rp : RosPlay) : RosPlay :=
  {| bag_time_initialized_ := bag_time_initialized_ rp; at_once_ := at_once_ rp;
     quiet_ := quiet_ rp; paused_ := paused_ rp; shifted_ := shifted_ rp;
     bag_time_ := bag_time_ rp; time_scale_ := v; queue_size_ := queue_size_ rp;
     bag_time_frequency_ := bag_time_frequency_ rp;
     advertise_sleep_ := advertise_sleep_ rp; start_time_ := start_time_ rp;
     requested_start_time_ := requested_start_time_ rp;
     paused_time_ := paused_time_ rp; orig_flags_ := orig_flags_ rp;
     player_ := player_ rp |}.

Definition set_queue_size (v : Z) (rp : RosPlay) : RosPlay :=
  {| bag_time_initialized_ := bag_time_initialized_ rp; at_once_ := at_once_ rp;
     quiet_ := quiet_ rp; paused_ := paused_ rp; shifted_ := shifted_ rp;
     bag_time_ := bag_time_ rp; time_scale_ := time_scale_ rp; queue_size_ := v;
     bag_time_frequency_ := bag_time_frequency_ rp;
     advertise_sleep_ := advertise_sleep_ rp; start_time_ := start_time_ rp;
     requested_start_time_ := requested_start_time_ rp;
     paused_time_ := paused_time_ rp; orig_flags_ := orig_flags_ rp;
     player_ := player_ rp |}.

Definition set_bag_time_frequency (v : Z) (rp : RosPlay) : RosPlay :=
  {| bag_time_initialized_ := bag_time_initialized_ rp; at_once_ := at_once_ rp;
     quiet_ := quiet_ rp; paused_ := paused_ rp; shifted_ := shifted_ rp;
     bag_time_ := bag_time_ rp; time_scale_ := time_scale_ rp;
     queue_size_ := queue_size_ rp; bag_time_frequency_ := v;
     advertise_sleep_ := advertise_sleep_ rp; start_time_ := start_time_ rp;
     requested_start_time_ := requested_start_time_ rp;
     paused_time_ := paused_time_ rp; orig_flags_ := orig_flags_ rp;
     player_ := player_ rp |}.

Definition set_advertise_sleep (v : Z) (rp : RosPlay) : RosPlay :=
  {| bag_time_initialized_ := bag_time_initialized_ rp; at_once_ := at_once_ rp;
     quiet_ := quiet_ rp; paused_ := paused_ rp; shifted_ := shifted_ rp;
     bag_time_ := bag_time_ rp; time_scale_ := time_scale_ rp;
     queue_size_ := queue_size_ rp; bag_time_frequency_ := bag_time_frequency_ rp;
     advertise_sleep_ := v; start_time_ := start_time_ rp;
     requested_start_time_ := requested_start_time_ rp;
     paused_time_ := paused_time_ rp; orig_flags_ := orig_flags_ rp;
     player_ := player_ rp |}.

Definition set_start_time (v : Z) (rp : RosPlay) : RosPlay :=
  {| bag_time_initialized_ := bag_time_initialized_ rp; at_once_ := at_once_ rp;
     quiet_ := quiet_ rp; paused_ := paused_ rp; shifted_ := shifted_ rp;
     bag_time_ := bag_time_ rp; time_scale_ := time_scale_ rp;
     queue_size_ := queue_size_ rp; bag_time_frequency_ := bag_time_frequency_ rp;
     advertise_sleep_ := advertise_sleep_ rp; start_time_ := v;
     requested_start_time_ := requested_start_time_ rp;
     paused_time_ := paused_time_ rp; orig_flags_ := orig_flags_ rp;
     player_ := player_ rp |}.

Definition set_requested_start_time (v : Z) (rp : RosPlay) : RosPlay :=
  {| bag_time_initialized_ := bag_time_initialized_ rp; at_once_ := at_once_ rp;
     quiet_ := quiet_ rp; paused_ := paused_ rp; shifted_ := shifted_ rp;
     bag_time_ := bag_time_ rp; time_scale_ := time_scale_ rp;
     queue_size_ := queue_size_ rp; bag_time_frequency_ := bag_time_frequency_ rp;
     advertise_sleep_ := advertise_sleep_ rp; start_time_ := start_time_ rp;
     requested_start_time_ := v; paused_time_ := paused_time_ rp;
     orig_flags_ := orig_flags_ rp; player_ := player_ rp |}.

Definition set_paused_time (v : Z) (rp : RosPlay) : RosPlay :=
  {| bag_time_initialized_ := bag_time_initialized_ rp; at_once_ := at_once_ rp;
     quiet_ := quiet_ rp; paused_ := paused_ rp; shifted_ := shifted_ rp;
     bag_time_ := bag_time_ rp; time_scale_ := time_scale_ rp;
     queue_size_ := queue_size_ rp; bag_time_frequency_ := bag_time_frequency_ rp;
     advertise_sleep_ := advertise_sleep_ rp; start_time_ := start_time_ rp;
     requested_start_time_ := requested_start_time_ rp; paused_time_ := v;
     orig_flags_ := orig_flags_ rp; player_ := player_ rp |}.

Definition set_player (v : Player) (rp : RosPlay) : RosPlay :=
  {| bag_time_initialized_ := bag_time_initialized_ rp; at_once_ := at_once_ rp;
     quiet_ := quiet_ rp; paused_ := paused_ rp; shifted_ := shifted_ rp;
     bag_time_ := bag_time_ rp; time_scale_ := time_scale_ rp;
     queue_size_ := queue_size_ rp; bag_time_frequency_ := bag_time_frequency_ rp;
     advertise_sleep_ := advertise_sleep_ rp; start_time_ := start_time_ rp;
     requested_start_time_ := requested_start_time_ rp;
     paused_time_ := paused_time_ rp; orig_flags_ := orig_flags_ rp; player_ := v |}.

Definition usage_text : string := "USAGE: rosplay [options] BAG1 [BAG2]".

Definition help_text : list string :=
  [" -n	disable display of current log time";
   " -c	check the contents of the bag without playing back";
   " -a	playback all messages without waiting";
   " -b hz	publish the bag time at frequence <hz>";
   " -p	start in paused mode";
   " -r	increase the publish rate ba a factor <rate_change>";
   " -s sec	sleep <sec> sleep duration after every advertise call (to allow subscribers to connect)";
   " -t sec	start <sec> seconds into the files";
   " -q sz	Use an outgoing queue of size <sz> (defaults to 0)";
   " -h	display this help message"].

Definition print_usage (w : World) : World := emit (Stderr usage_text) w.

Definition print_help (w : World) : World :=
  fold_left (fun w' line => emit (Stderr line) w') help_text (print_usage w).

Definition optarg_of (optarg : option string) : string :=
  match optarg with Some s => s | None => EmptyString end.

Definition is_opt (c : ascii) (letter : string) : bool :=
  String.eqb (String c EmptyString) letter.

(* The option loop of the constructor: the switch over the values getopt
   returns with "ncahpb:r:s:t:q:".  time is the local buffer (None while
   has_time is false; strncpy keeps at most 1024 characters).  inr is the
   `return` of case 'h' and case '?'. *)
Fixpoint ctor_options (evs : list optev) (rp : RosPlay) (time : option string)
         (w : World) : (RosPlay * option string * World) + (RosPlay * World) :=
  match evs with
  | [] => inl (rp, time, w)
  | BadOpt c :: _ => inr (rp, shutdown (print_usage (emit (GetoptError c) w)))
  | Opt c optarg :: evs' =>
      if is_opt c "c" then ctor_options evs' rp time (shutdown w)
      else if is_opt c "n" then ctor_options evs' (set_quiet true rp) time w
      else if is_opt c "a" then ctor_options evs' (set_at_once true rp) time w
      else if is_opt c "p" then ctor_options evs' (set_paused true rp) time w
      else if is_opt c "s" then
        ctor_options evs' (set_advertise_sleep (usec_of (atof (optarg_of optarg))) rp) time w
      else if is_opt c "t" then
        ctor_options evs' rp (Some (String.substring 0 1024 (optarg_of optarg))) w
      else if is_opt c "q" then
        ctor_options evs' (set_queue_size (atoi (optarg_of optarg)) rp) time w
      else if is_opt c "b" then
        ctor_options evs'
          (set_bag_time true (set_bag_time_frequency (atoi (optarg_of optarg)) rp)) time w
      else if is_opt c "r" then
        ctor_options evs' (set_time_scale (atof (optarg_of optarg)) rp) time w
      else if is_opt c "h" then inr (rp, shutdown (print_help w))
      else ctor_options evs' rp time w
  end.

(* The member initialisers of RosPlay::RosPlay, with advertise_sleep_ and
   orig_flags_ as the first statements of the body set them. *)
Definition initial_RosPlay (orig : termios) : RosPlay :=
  {| bag_time_initialized_ := false; at_once_ := false; quiet_ := false;
     paused_ := false; shifted_ := false; bag_time_ := false;
     time_scale_ := nearest 53 1024 (Finite false 1 1); queue_size_ := 0;
     bag_time_frequency_ := 0;
     advertise_sleep_ := 200000; start_time_ := 0; requested_start_time_ := 0;
     paused_time_ := 0; orig_flags_ := orig; player_ := closed_player |}.

(* RosPlay::RosPlay(int i_argc, char **i_argv).  The result is the object,
   the envelopes its player will read, and the world. *)
Definition RosPlay_new (m : Machine) (argv : list string) (w : World)
  : RosPlay * list Envelope * World :=
  (* tcgetattr(fd, &orig_flags_); ...; tcsetattr(fd, TCSANOW, &flags); *)
  let rp0 := initial_RosPlay (tty w) in
  let w0 := tcsetattr (raw_flags (tty w)) w in
  let (evs, bags) := getopt_scan (posix m) "ncahpb:r:s:t:q:" (tl argv) in
  match ctor_options evs rp0 None w0 with
  | inr (rp, w1) => (rp, [], w1)
  | inl (rp, time, w1) =>
      let float_time : float :=
        match time with Some t => to_float (atof t) | None => S754_zero false end in
      match bags with
      | [] =>   (* optind == i_argc *)
          (rp, [],
           shutdown (print_help
             (emit (Stderr "You must specify at least one bagfile to play from.") w1)))
      | _ :: _ =>
          if (bag_time_ rp && (1 <? Z.of_nat (length bags)))%bool then
            (rp, [],
             shutdown (print_usage
               (emit (Stderr "You can only play one single bag when using bag time [-b].") w1)))
          else
            let w2 := emit_if (bag_time_ rp)
                        (BagTimeInitialize (bag_time_frequency_ rp) (time_scale_ rp)) w1 in
            let (now, w3) := getSysTime m w2 in
            let rp1 := set_requested_start_time now (set_start_time now rp) in
            (* start_time_ + ros::Duration().fromSec(-float_time): C leaves
               the conversion of an infinite or NaN float_time undefined,
               it counts as 0 here; the player gets the number that
               time_scale_ stands for *)
            let start := now + fromSec (Qvalue (SFopp float_time)) in
            let (pl, cursor) := player_open m bags start (Qvalue (time_scale_ rp1)) in
            let w4 := emit (PlayerOpen bags start (Qvalue (time_scale_ rp1)) (p_opened pl)) w3 in
            let rp2 := set_player (if p_opened pl then addHandler pl else pl) rp1 in
            if negb (at_once_ rp2) then
              if paused_ rp2 then
                let (t, w5) := getSysTime m w4 in
                (set_paused_time t rp2, cursor,
                 emit (Stdout "Hit space to resume, or 's' to step.") w5)
              else (rp2, cursor, emit (Stdout "Hit space to pause.") w4)
            else (rp2, cursor, w4)
      end
  end.

(* RosPlay::~RosPlay() *)
Definition RosPlay_delete (rp : RosPlay) (w : World) : World :=
  tcsetattr (orig_flags_ rp) w.

(* --------------------------------------------------------------------- *)
(* RosPlay::doPublish and RosPlay::spin                                   *)
(* --------------------------------------------------------------------- *)

(* Returned: the call came back.  Polling: the recorded results of getchar
   are used up while the handler is still in its keyboard loop. *)
Inductive status :=
| Returned
| Polling.

(* case ' ' of the switch; the third component is play_time afterwards *)
Definition on_space (m : Machine) (rp : RosPlay) (w : World)
           (play_time record_time : Z) : RosPlay * World * Z :=
  let rp1 := set_paused (negb (paused_ rp)) rp in
  if paused_ rp1 then
    let w1 := emit_if (bag_time_ rp1) FreezeTime w in
    let (t, w2) := getSysTime m w1 in
    (set_paused_time t rp1,
     emit (Stdout "Hit space to resume, or 's' to step.") w2, play_time)
  else
    let w1 := emit_if (bag_time_ rp1) (StartTime record_time) w in
    if shifted_ rp1 then
      let (t1, w2) := getSysTime m w1 in
      let shift := t1 - play_time in
      let (t2, w3) := getSysTime m w2 in
      let rp2 := set_shifted false rp1 in
      (set_player (shiftTime shift (player_ rp2)) rp2,
       emit (Stdout "Hit space to pause.") w3, t2)
    else
      let (t1, w2) := getSysTime m w1 in
      let shift := t1 - paused_time_ rp1 in
      (set_player (shiftTime shift (player_ rp1)) rp1,
       emit (Stdout "Hit space to pause.") w2, play_time + shift).

(* After the keyboard loop: the last short sleep and the publish. *)
Definition publish_on_time (rp : RosPlay) (w : World) (name : string)
           (msg : Envelope) (delta : Z) : World :=
  let w1 := emit_if (negb (paused_ rp) && (5000 <? delta) && node_ok w)%bool
              (Usleep (to_uint32 (Z.quot delta 1000 - 5))) w in
  emit (Publish name msg) w1.

(* The two nested while loops of doPublish, entered with ok() true.  ok()
   is read from the node, which nothing inside the loops changes, so both
   guards keep their `&& ok()` conjunct true; every turn of the inner loop
   takes one result of getchar.  ' ' is 32 and 's' is 115. *)
Fixpoint wait_loop (m : Machine) (keys : list Z) (rp : RosPlay) (w : World)
         (name : string) (msg : Envelope) (play_time record_time : Z)
  : status * RosPlay * World * list Z :=
  match keys with
  | [] => (Polling, rp, w, [])
  | k :: keys' =>
      let c := to_char k in
      if c =? 32 then
        let '(rp1, w1, play_time1) := on_space m rp w play_time record_time in
        wait_loop m keys' rp1 w1 name msg play_time1 record_time
      else if c =? 115 then
        if paused_ rp then
          let rp1 := set_shifted true rp in
          let w1 := emit_if (bag_time_ rp1) (StepTime record_time) w in
          (Returned, rp1, emit (Publish name msg) w1, keys')
        else wait_loop m keys' rp w name msg play_time record_time
      else if c =? EOF then
        if paused_ rp then
          wait_loop m keys' rp (emit (Usleep 10000) w) name msg play_time record_time
        else
          (* charsleftorpaused = false ends the inner loop *)
          let w1 := emit (Usleep 100000) w in
          let (t, w2) := getSysTime m w1 in
          let delta := play_time - t in
          if (paused_ rp || (100000 <? delta))%bool then
            wait_loop m keys' rp w2 name msg play_time record_time
          else (Returned, rp, publish_on_time rp w2 name msg delta, keys')
      else wait_loop m keys' rp w name msg play_time record_time
  end.

(* void RosPlay::doPublish(string name, ros::Message* m, ros::Time play_time,
                           ros::Time record_time, void* n)
   keys are the results of getchar still to come. *)
Definition doPublish (m : Machine) (rp : RosPlay) (w : World) (keys : list Z)
           (name : string) (msg : Envelope) (play_time record_time : Z)
  : status * RosPlay * World * list Z :=
  if play_time <? requested_start_time_ rp then (Returned, rp, w, keys)
  else
    let (rp1, w1) :=
      if bag_time_ rp then
        let (rpa, wa) :=
          if negb (bag_time_initialized_ rp) then
            (set_bag_time_initialized true rp,
             emit (if paused_ rp then StepTime record_time
                   else StartTime record_time) w)
          else (rp, w) in
        (rpa, emit (if at_once_ rpa then StartTime record_time
                    else SetHorizon play_time) wa)
      else (rp, w) in
    let (fresh, w2) := advertise name (queue_size_ rp1) w1 in
    let (rp2, w3) :=
      if fresh then
        let wa := emit_if (bag_time_ rp1) FreezeTime w2 in
        let (t0, wb) := getSysTime m wa in     (* the local Time paused_time_ *)
        let wc := emit (RosInfo "Sleeping after advertising") wb in
        let wd := emit (Usleep (advertise_sleep_ rp1)) wc in
        let we := emit (RosInfo "Done sleeping.") wd in
        let (t1, wf) := getSysTime m we in
        let shift := t1 - t0 in
        (set_player (shiftTime shift (player_ rp1)) rp1,
         emit_if (bag_time_ rp1) (StartTime record_time) wf)
      else (rp1, w2) in
    if negb (at_once_ rp2) then
      let (now, w4) := getSysTime m w3 in
      let (t, w5) := getSysTime m w4 in
      let delta := play_time - t in
      if ((paused_ rp2 || (100000 <? delta)) && node_ok w5)%bool then
        wait_loop m keys rp2 w5 name msg play_time record_time
      else (Returned, rp2, publish_on_time rp2 w5 name msg delta, keys)
    else (Returned, rp2, emit (Publish name msg) w3, keys).

(* The while loop of spin over the envelopes the player still has:
   player_.nextMsg() hands the next one to the handler with its play time,
   and answers false at the end.  (The "Time: ... Duration: ..." line, which
   is limited to one per 0.1 s of wall time, is not recorded.) *)
Fixpoint play_loop (m : Machine) (cursor : list Envelope) (rp : RosPlay)
         (w : World) (keys : list Z) : status * RosPlay * World * list Z :=
  match cursor with
  | [] => (Returned, rp, w, keys)
  | e :: cursor' =>
      if node_ok w then
        if p_handler (player_ rp) then
          match doPublish m rp w keys (topic e) e (play_time (player_ rp) e)
                          (record_time e) with
          | (Returned, rp', w', keys') => play_loop m cursor' rp' w' keys'
          | blocked => blocked
          end
        else play_loop m cursor' rp w keys
      else (Returned, rp, w, keys)
  end.

(* bool RosPlay::spin() *)
Definition spin (m : Machine) (cursor : list Envelope) (rp : RosPlay)
           (w : World) (keys : list Z) : status * RosPlay * World * list Z :=
  if node_ok w then
    let w1 := emit_if (negb (quiet_ rp)) (Stdout "") w in
    match play_loop m cursor rp w1 keys with
    | (Returned, rp', w', keys') => (Returned, rp', emit (Stdout "Done.") w', keys')
    | blocked => blocked
    end
  else (Returned, rp, w, keys).

(* --------------------------------------------------------------------- *)
(* Check mode: checkFile and main                                         *)
(* --------------------------------------------------------------------- *)

(* map<string, BagContent> g_content;  unsigned long long g_end_time; *)
Record Globals := {
  g_content : gmap string BagContent;
  g_end_time : Z
}.

Definition initial_globals : Globals := {| g_content := ∅; g_end_time := 0 |}.

(* void checkFile(string name, ros::Message* m, ros::Time time_play,
                  ros::Time time_recorded, void* n) *)
Definition checkFile (g : Globals) (name : string) (m : Envelope)
           (time_play time_recorded : Z) : Globals :=
  {| g_content :=
       match g_content g !! name with
       | None =>
           <[name := {| bc_datatype := datatype m; bc_md5sum := md5sum m;
                        count := 1 |}]> (g_content g)
       | Some i =>
           <[name := {| bc_datatype := bc_datatype i; bc_md5sum := bc_md5sum i;
                        count := to_int32 (count i + 1) |}]> (g_content g)
       end;
     g_end_time := to_uint64 time_play |}.

(* while(player.nextMsg()) { } with checkFile as the handler for "*" *)
Fixpoint scan_bag (p : Player) (cursor : list Envelope) (g : Globals) : Globals :=
  match cursor with
  | [] => g
  | e :: cursor' =>
      scan_bag p cursor'
        (if p_handler p
         then checkFile g (topic e) e (play_time p e) (record_time e)
         else g)
  end.

(* The switch of main over the values getopt returns with "cahpt:q:";
   inr carries the value main returns from inside the loop. *)
Fixpoint check_options (evs : list optev) (w : World) : World + (Z * World) :=
  match evs with
  | [] => inl w
  | BadOpt c :: _ => inr (0, print_usage (emit (GetoptError c) w))
  | Opt c _ :: evs' =>
      if is_opt c "c" then check_options evs' w
      else if is_opt c "a" then
        inr (1, emit (Stderr "Option -a is not valid when checking bag") w)
      else if is_opt c "p" then
        inr (1, emit (Stderr "Option -p is not valid when checking bag") w)
      else if is_opt c "t" then
        inr (1, emit (Stderr "Option -t is not valid when checking bag") w)
      else if is_opt c "q" then
        inr (1, emit (Stderr "Option -q is not valid when checking bag") w)
      else if is_opt c "h" then inr (0, print_help w)
      else check_options evs' w
  end.

(* How the process ends.  Aborted: argv[optind] is the null pointer and
   std::string is built from it.  StillPolling: see status. *)
Inductive exit_status :=
| Exit (code : Z)
| Aborted
| StillPolling.

Record Run := {
  exit_of : exit_status;
  world_of : World
}.

Definition initial_world (m : Machine) : World :=
  {| node_ok := false; advertised := ∅; tty := stdin_tty m; ticks := 0%nat;
     trace := [] |}.

(* ros::Node n("rosplay", ros::Node::ANONYMOUS_NAME); *)
Definition node_create (name : string) (w : World) : World :=
  {| node_ok := true; advertised := advertised w; tty := tty w;
     ticks := ticks w; trace := NodeCreate name :: trace w |}.

(* The body of `if (check_bag) { ... }`. *)
Definition check_bag_main (m : Machine) (argv : list string) (w : World) : Run :=
  let (evs, operands) := getopt_scan (posix m) "cahpt:q:" (tl argv) in
  match check_options evs w with
  | inr (code, w1) => {| exit_of := Exit code; world_of := w1 |}
  | inl w1 =>
      if 1 <? Z.of_nat (length operands) then
        {| exit_of := Exit 1;
           world_of := emit (Stderr "Only 1 bag can be checked at a time") w1 |}
      else
        match operands with
        | [] => {| exit_of := Aborted; world_of := w1 |}
        | bag :: _ =>
            let (p0, cursor) := player_open m [bag] 0 1%Q in
            let player := if p_opened p0 then addHandler p0 else p0 in
            let w2 := emit (PlayerOpen [bag] 0 1%Q (p_opened p0)) w1 in
            let g := scan_bag player cursor initial_globals in
            let first := p_first_record_time player in
            {| exit_of := Exit 0;
               world_of :=
                 emit (CheckReport bag
                         (to_int64 first)
                         (to_int64 (to_uint64 (g_end_time g + first)))
                         (to_int64 (g_end_time g))
                         (g_content g)) w2 |}
        end
  end.

(* int main(int argc, char **argv) *)
Definition main (m : Machine) (argv : list string) : Run :=
  let check_bag := existsb (String.eqb "-c") argv in
  let w := initial_world m in
  if check_bag then check_bag_main m argv w
  else
    let w1 := node_create "rosplay" (emit RosInit w) in
    let '(rp, cursor, w2) := RosPlay_new m argv w1 in
    match spin m cursor rp w2 (stdin_keys m) with
    | (Returned, rp', w3, _) =>
        {| exit_of := Exit 0;
           world_of := RosPlay_delete rp' (emit (Usleep 1000000) w3) |}
    | (Polling, _, w3, _) => {| exit_of := StillPolling; world_of := w3 |}
    end.

(* --------------------------------------------------------------------- *)
(* Vocabulary of the statements below                                     *)
(* --------------------------------------------------------------------- *)

(* Values of getopt at which the switch of check mode returns 1. *)
Definition is_rejected (ev : optev) : bool :=
  match ev with
  | Opt c _ => (is_opt c "a" || is_opt c "p" || is_opt c "t" || is_opt c "q")%bool
  | BadOpt _ => false
  end.

(* Values of getopt at which both switches print help or usage and return:
   'h', and '?' for a character that is not in optstring or lacks its
   argument. *)
Definition is_help (ev : optev) : bool :=
  match ev with
  | Opt c _ => is_opt c "h"
  | BadOpt _ => true
  end.

Definition decisive (ev : optev) : bool := (is_rejected ev || is_help ev)%bool.

Definition rejection_text (ev : optev) : string :=
  match ev with
  | Opt c _ =>
      String.append "Option -" (String c " is not valid when checking bag")
  | BadOpt _ => EmptyString
  end.

Definition sets_bag_time (ev : optev) : bool :=
  match ev with
  | Opt c _ => is_opt c "b"
  | BadOpt _ => false
  end.

(* The events by which a node comes to exist, a bag is opened, a topic is
   advertised or a message is published. *)
Definition creates_node (ev : event) : bool :=
  match ev with
  | RosInit | NodeCreate _ => true
  | _ => false
  end.

Definition opens_bag (ev : event) : bool :=
  match ev with
  | PlayerOpen _ _ _ _ => true
  | _ => false
  end.

Definition sends (ev : event) : bool :=
  match ev with
  | Advertise _ _ _ | Publish _ _ => true
  | _ => false
  end.

(* The messages published by a stretch of trace, latest first. *)
Fixpoint publishes (evs : list event) : list (string * Envelope) :=
  match evs with
  | [] => []
  | Publish name m :: evs' => (name, m) :: publishes evs'
  | _ :: evs' => publishes evs'
  end.

(* The lines written to stderr by fprintf, latest first. *)
Fixpoint stderr_lines (evs : list event) : list string :=
  match evs with
  | [] => []
  | Stderr text :: evs' => text :: stderr_lines evs'
  | _ :: evs' => stderr_lines evs'
  end.

(* The topics on which a stretch of trace advertises or publishes. *)
Fixpoint touched (evs : list event) : list string :=
  match evs with
  | [] => []
  | Publish name _ :: evs' => name :: touched evs'
  | Advertise name _ _ :: evs' => name :: touched evs'
  | _ :: evs' => touched evs'
  end.

(* What a call of the handler, or a run of spin, leaves as it was: the
   terminal, the node's ok flag, the saved terminal settings, and the members
   set once by the constructor. *)
Definition same_frame (rp : RosPlay) (w : World) (rp' : RosPlay) (w' : World) : Prop :=
  tty w' = tty w /\
  node_ok w' = node_ok w /\
  orig_flags_ rp' = orig_flags_ rp /\
  at_once_ rp' = at_once_ rp /\
  requested_start_time_ rp' = requested_start_time_ rp /\
  p_handler (player_ rp') = p_handler (player_ rp).

(* What a call of the handler publishes once it is past the start-time
   test: the message, once, when it returns; nothing while it polls. *)
Definition sent_by (st : status) (name : string) (msg : Envelope)
  : list (string * Envelope) :=
  match st with
  | Returned => [(name, msg)]
  | Polling => []
  end.

(* A result of getchar that is neither ' ' nor 's': EOF when no key is
   waiting, or any other key. *)
Definition idle_key (k : Z) : Prop := to_char k <> 32 /\ to_char k <> 115.

(* Keyboard input with one press of 's' at the end of each block. *)
Definition presses (blocks : list (list Z)) : list Z :=
  flat_map (fun idle => idle ++ [115]) blocks.

(* The envelopes of a bag bearing a topic. *)
Definition bearing (t : string) (es : list Envelope) : list Envelope :=
  List.filter (fun e => String.eqb (topic e) t) es.

(* What check mode should report for a topic: type and hash of its first
   envelope and the number of its envelopes. *)
Definition summary (t : string) (es : list Envelope) : option BagContent :=
  match bearing t es with
  | [] => None
  | e :: _ =>
      Some {| bc_datatype := datatype e; bc_md5sum := md5sum e;
              count := Z.of_nat (length (bearing t es)) |}
  end.

(* How far the last envelope lies behind the first. *)
Definition span (es : list Envelope) : Z :=
  match last es with
  | Some e => record_time e - first_record_time es
  | None => 0
  end.

(* A record time that fits ros::Duration (32-bit seconds since 1970). *)
Definition fits_duration (e : Envelope) : Prop :=
  0 <= record_time e < 2 ^ 31 * 1000000000.

(* float float_time = 0.0f; if (has_time) float_time = atof(time); *)
Definition float_time_of (time : option string) : float :=
  match time with
  | Some t => to_float (atof t)
  | None => S754_zero false
  end.

(* The requested start offset into the files, in nanoseconds:
   requested_start_time_ minus the start time handed to the player. *)
Definition start_offset (float_time : float) : Z :=
  - fromSec (Qvalue (SFopp float_time)).

(* --------------------------------------------------------------------- *)
(* Sample machines and bags                                               *)
(* --------------------------------------------------------------------- *)

Definition envelope (t d : string) (sec : Z) : Envelope :=
  {| topic := t; datatype := d; md5sum := "d41d8cd9"; payload := [];
     record_time := sec * 1000000000 |}.

Definition e_scan0 : Envelope := envelope "/scan" "std_msgs/LaserScan" 100.
Definition e_odom : Envelope := envelope "/odom" "std_msgs/RobotBase2DOdom" 107.
Definition e_scan1 : Envelope := envelope "/scan" "std_msgs/LaserScan" 111.

Definition sample_bag : list Envelope := [e_scan0; e_odom; e_scan1].

(* One bag file, a clock that advances by a millisecond per reading from
   1000 s, a terminal in line mode, and the given keyboard input. *)
Definition sample_machine (keys : list Z) : Machine :=
  {| posix := false;
     files := fun f => if String.eqb f "a.bag" then Some sample_bag else None;
     clock := fun k => 1000000000000 + 1000000 * Z.of_nat k;
     stdin_keys := keys;
     stdin_tty := cooked_tty |}.

(* A player that was started paused on sample_bag. *)
Definition paused_player : RosPlay :=
  set_player
    {| p_opened := true; p_handler := true; p_wall_start := 1000000000000;
       p_time_scale := 1%Q; p_first_record_time := 100000000000; p_shift := 0 |}
    (set_requested_start_time 1000000000000
       (set_start_time 1000000000000
          (set_paused true (initial_RosPlay cooked_tty)))).

Definition live_world : World :=
  node_create "rosplay" (initial_world (sample_machine [])).

(* rosplay a.bag, just after the constructor. *)
Definition sample_start : RosPlay * list Envelope * World :=
  RosPlay_new (sample_machine []) ["rosplay"; "a.bag"] live_world.

(* Calls of tcsetattr. *)
Definition sets_terminal (ev : event) : bool :=
  match ev with
  | Tcsetattr _ => true
  | _ => false
  end.

(* Calls on bag_time_publisher_. *)
Definition bag_time_event (ev : event) : bool :=
  match ev with
  | BagTimeInitialize _ _ | StepTime _ | StartTime _ | FreezeTime | SetHorizon _ => true
  | _ => false
  end.

(* Without bag time, a step leaves bag_time_ unset and adds no call on
   bag_time_publisher_. *)
Definition no_bag_time (rp : RosPlay) (w : World) (rp' : RosPlay) (w' : World) : Prop :=
  bag_time_ rp' = false /\
  existsb bag_time_event (trace w') = existsb bag_time_event (trace w).

(* A 'c' returned by getopt to the constructor (a -c grouped with other
   options; a lone "-c" argument selects check mode in main). *)
Definition is_c_opt (ev : optev) : bool :=
  match ev with
  | Opt c _ => is_opt c "c"
  | BadOpt _ => false
  end.

(* The sum of the counts of a report. *)
Definition total_count (content : gmap string BagContent) : Z :=
  map_fold (fun _ i acc => count i + acc) 0 content.

(* rosplay -a -r 2 -t 5 a.bag, and the object just after the constructor. *)
Definition scaled_argv : list string :=
  ["rosplay"; "-a"; "-r"; "2"; "-t"; "5"; "a.bag"].

Definition scaled_start : RosPlay * list Envelope * World :=
  RosPlay_new (sample_machine []) scaled_argv live_world.

(* Envelopes recorded 0 s, 0.1 s and 0.2 s into a file. *)
Definition e_zero : Envelope :=
  {| topic := "/a"; datatype := "std_msgs/String"; md5sum := "992ce8a1";
     payload := []; record_time := 100000000000 |}.
Definition e_tenth : Envelope :=
  {| topic := "/b"; datatype := "std_msgs/String"; md5sum := "992ce8a1";
     payload := []; record_time := 100100000000 |}.
Definition e_fifth : Envelope :=
  {| topic := "/c"; datatype := "std_msgs/String"; md5sum := "992ce8a1";
     payload := []; record_time := 100200000000 |}.

Definition tenth_bag : list Envelope := [e_zero; e_tenth; e_fifth].

(* As sample_machine, with that file as b.bag. *)
Definition tenth_machine : Machine :=
  {| posix := false;
     files := fun f => if String.eqb f "b.bag" then Some tenth_bag else None;
     clock := fun k => 1000000000000 + 1000000 * Z.of_nat k;
     stdin_keys := [];
     stdin_tty := cooked_tty |}.

(* rosplay -a -t 0.1 b.bag *)
Definition tenth_argv : list string := ["rosplay"; "-a"; "-t"; "0.1"; "b.bag"].

End Rosplay.

(* ===================================================================== *)
(* Facts: NodeHandle::param                                               *)
(* ===================================================================== *)
Module ParamFacts.
Import NodeHandle.

Section WithClient.
Context {Server T : Type} `{ParamClient Server T}.

(** C9: for every call param(name, val, default_val), with has the answer
    of hasParam(name) and (got, v) the answer and the stored value of
    getParam(name, val) on the server as hasParam left it: val ends as
    the server's value v when has and got are both true, and as
    default_val in every other case (parameter absent, or retrieval
    failed). *)
Theorem param_assigns (name : string) (val default_val v : T)
        (s s1 s2 : Server) (has got : bool) :
  hasParam name s = (has, s1) ->
  getParam name val s1 = (got, v, s2) ->
  fst (param name val default_val s) = if (has && got)%bool then v else default_val.
Proof.
  intros Hhas Hget. unfold param. rewrite Hhas.
  destruct has; simpl; [| reflexivity].
  rewrite Hget. destruct got; reflexivity.
Qed.
End WithClient.

(* "rate" is stored as an int and is retrieved; "frame" is present but is
   a string, so getParam(..., int&) fails and the default is used. *)
Lemma param_assigns_witness :
  fst (param "rate" 0 5 sample_server) = 10 /\
  fst (param "frame" 0 5 sample_server) = 5.
Proof.
  split.
  - apply (param_assigns "rate" 0 5 10 sample_server sample_server sample_server
             true true); vm_compute; reflexivity.
  - apply (param_assigns "frame" 0 5 0 sample_server sample_server sample_server
             true false); vm_compute; reflexivity.
Defined.

End ParamFacts.

(* ===================================================================== *)
(* Facts: rosdep OS detection                                             *)
(* ===================================================================== *)
Module RosdepFacts.
Import Rosdep.

(** C8: in every environment where ROSDEP_OS_NAME is set (to n), whatever
    the file system holds, detect returns true, assigns n to the name,
    consults no file, and assigns the version exactly when
    ROSDEP_OS_VERSION is set, to that value; the object built by OS::OS
    then has name n and that version (empty when the variable is unset). *)
Theorem detect_override (env : gmap string string) (fs : FileSystem) (n : string) :
  env !! "ROSDEP_OS_NAME" = Some n ->
  detect env fs =
    {| d_result := Return true;
       d_writes := {| w_name := Some n;
                      w_ver := env !! "ROSDEP_OS_VERSION";
                      w_version := None |};
       d_log := [] |}
  /\ OS_new env fs = inl {| name := n;
                            version := assign "" (env !! "ROSDEP_OS_VERSION") |}.
Proof.
  intros Hn.
  assert (Hd : detect env fs =
    {| d_result := Return true;
       d_writes := {| w_name := Some n;
                      w_ver := env !! "ROSDEP_OS_VERSION";
                      w_version := None |};
       d_log := [] |}).
  { unfold detect. rewrite Hn. reflexivity. }
  split; [exact Hd |].
  unfold OS_new. rewrite Hd. reflexivity.
Qed.

Lemma detect_override_witness :
  OS_new (<["ROSDEP_OS_NAME" := "debian"]> ∅) ubuntu_files
  = inl {| name := "debian"; version := "" |}.
Proof.
  destruct (detect_override (<["ROSDEP_OS_NAME" := "debian"]> ∅) ubuntu_files "debian")
    as [_ Hos].
  - vm_compute. reflexivity.
  - exact Hos.
Defined.

End RosdepFacts.

(* ===================================================================== *)
(* Facts: the service-call test                                           *)
(* ===================================================================== *)
Module SrvCallFacts.
Import SrvCall.

Lemma wait_ready_polls (ros : Ros) (v : Z) (k : nat) :
  forall fuel j,
    (forall i, (j <= i < j + k)%nat -> getParam ros i "advertisers_ready" = None) ->
    getParam ros (j + k) "advertisers_ready" = Some v ->
    (k < fuel)%nat ->
    wait_ready ros fuel j = Some (polls k ++ [GetParam "advertisers_ready"]).
Proof.
  induction k as [| k IH]; intros fuel j Hnone Hsome Hfuel.
  - destruct fuel as [| fuel]; [lia |]. simpl.
    replace (j + 0)%nat with j in Hsome by lia. rewrite Hsome. reflexivity.
  - destruct fuel as [| fuel]; [lia |]. simpl.
    rewrite (Hnone j) by lia.
    rewrite (IH fuel (S j)).
    + reflexivity.
    + intros i Hi. apply Hnone. lia.
    + replace (S j + k)%nat with (j + S k)%nat by lia. exact Hsome.
    + lia.
Qed.

Lemma wait_ready_starved (ros : Ros) :
  forall fuel j,
    (forall i, (j <= i < j + fuel)%nat -> getParam ros i "advertisers_ready" = None) ->
    wait_ready ros fuel j = None.
Proof.
  induction fuel as [| fuel IH]; intros j Hnone; [reflexivity |].
  simpl. rewrite (Hnone j) by lia.
  rewrite IH; [reflexivity |]. intros i Hi. apply Hnone. lia.
Qed.

(** C7: when "advertisers_ready" cannot be retrieved at the first k polls
    and can at the next one, the test polls k+1 times, sleeping 100 ms
    after each failure, and only then calls "service_adv" once with the
    request string "nothing"; it passes exactly when that call returns
    true with a response that reads "B" as a C string.  As long as only
    failing polls have been made, the test is still waiting. *)
Theorem callSrv_requires_B (ros : Ros) (k : nat) (v : Z) :
  (forall i, (i < k)%nat -> getParam ros i "advertisers_ready" = None) ->
  getParam ros k "advertisers_ready" = Some v ->
  (forall fuel, (fuel <= k)%nat -> callSrv ros fuel = None) /\
  (forall fuel, (k < fuel)%nat ->
     exists verdict,
       callSrv ros fuel =
         Some (verdict,
               polls k ++ [GetParam "advertisers_ready"; Call "service_adv" "nothing"])
       /\ (verdict = Passed <->
           exists res, call ros "service_adv" "nothing" = Some res /\ c_str res = "B")).
Proof.
  intros Hnone Hsome. split.
  - intros fuel Hfuel. unfold callSrv.
    rewrite wait_ready_starved; [reflexivity |].
    intros i Hi. apply Hnone. lia.
  - intros fuel Hfuel. unfold callSrv.
    rewrite (wait_ready_polls ros v k fuel 0%nat); [| | exact Hsome | exact Hfuel].
    2:{ intros i Hi. apply Hnone. lia. }
    rewrite <- app_assoc. simpl.
    destruct (call ros "service_adv" "nothing") as [res |] eqn:Hcall.
    + destruct (String.eqb (c_str res) "B") eqn:Hb.
      * exists Passed. split; [reflexivity |]. split; [| reflexivity].
        intros _. exists res. split; [reflexivity |].
        apply String.eqb_eq. exact Hb.
      * exists FailedAssertStreq. split; [reflexivity |]. split; [discriminate |].
        intros [res' [Hres Hc]]. inversion Hres; subst res'.
        apply String.eqb_eq in Hc. congruence.
    + exists FailedAssertTrue. split; [reflexivity |]. split; [discriminate |].
      intros [res' [Hres _]]. discriminate.
Qed.

Lemma callSrv_requires_B_witness :
  callSrv fixture 2 = None /\
  exists verdict,
    callSrv fixture 5 =
      Some (verdict,
            polls 2 ++ [GetParam "advertisers_ready"; Call "service_adv" "nothing"])
    /\ (verdict = Passed <->
        exists res, call fixture "service_adv" "nothing" = Some res /\ c_str res = "B").
Proof.
  assert (H0 : forall i, (i < 2)%nat -> getParam fixture i "advertisers_ready" = None).
  { intros i Hi. destruct i as [| [| i]]; [reflexivity | reflexivity | lia]. }
  destruct (callSrv_requires_B fixture 2 1 H0 eq_refl) as [Hwait Hrun].
  split.
  - apply Hwait. lia.
  - apply Hrun. lia.
Defined.

End SrvCallFacts.

(* ===================================================================== *)
(* Facts: rosplay                                                         *)
(* ===================================================================== *)
Module RosplayFacts.
Import Rosplay.

(* ---- each step keeps the frame ---- *)

Lemma same_frame_refl rp w : same_frame rp w rp w.
Proof. unfold same_frame. repeat split. Qed.

Lemma same_frame_trans rp w rp1 w1 rp2 w2 :
  same_frame rp w rp1 w1 -> same_frame rp1 w1 rp2 w2 -> same_frame rp w rp2 w2.
Proof.
  unfold same_frame.
  intros (A1 & A2 & A3 & A4 & A5 & A6) (B1 & B2 & B3 & B4 & B5 & B6).
  repeat split; congruence.
Qed.

Ltac split_ifs :=
  repeat match goal with
         | |- context [if ?b then _ else _] => destruct b eqn:?; simpl
         end.

(* case ' ' publishes nothing and touches no topic *)
Lemma on_space_quiet m rp w pt rt rp1 w1 pt1 :
  on_space m rp w pt rt = (rp1, w1, pt1) ->
  same_frame rp w rp1 w1 /\
  publishes (trace w1) = publishes (trace w) /\
  touched (trace w1) = touched (trace w).
Proof.
  unfold on_space, same_frame, emit_if. destruct rp; simpl.
  split_ifs; intros E; inversion E; subst; simpl; repeat split.
Qed.

Lemma publish_on_time_sends rp w name msg delta :
  same_frame rp w rp (publish_on_time rp w name msg delta) /\
  publishes (trace (publish_on_time rp w name msg delta))
    = (name, msg) :: publishes (trace w) /\
  touched (trace (publish_on_time rp w name msg delta)) = name :: touched (trace w).
Proof.
  unfold publish_on_time, same_frame, emit_if.
  split_ifs; repeat split.
Qed.

(* The keyboard loop publishes the message once when it returns, and not
   at all while it is still polling. *)
Lemma wait_loop_sends m name msg rt :
  forall keys rp w pt st rp' w' keys',
    wait_loop m keys rp w name msg pt rt = (st, rp', w', keys') ->
    same_frame rp w rp' w' /\
    publishes (trace w') = sent_by st name msg ++ publishes (trace w) /\
    touched (trace w') = map fst (sent_by st name msg) ++ touched (trace w).
Proof.
  induction keys as [| k keys IH]; intros rp w pt st rp' w' keys' E; simpl in E.
  - inversion E; subst. repeat split.
  - destruct (to_char k =? 32).
    { destruct (on_space m rp w pt rt) as [[rp1 w1] pt1] eqn:Esp.
      apply on_space_quiet in Esp. destruct Esp as (F1 & P1 & T1).
      apply IH in E. destruct E as (F2 & P2 & T2).
      split; [eapply same_frame_trans; eassumption |].
      rewrite P2, T2, P1, T1. split; reflexivity. }
    destruct (to_char k =? 115).
    { destruct (paused_ rp) eqn:Hp.
      - inversion E; subst. unfold same_frame, emit_if. destruct rp; simpl.
        split_ifs; repeat split.
      - apply IH in E. exact E. }
    destruct (to_char k =? EOF).
    { destruct (paused_ rp) eqn:Hp.
      - apply IH in E. destruct E as (F2 & P2 & T2).
        split; [exact F2 |]. rewrite P2, T2. split; reflexivity.
      - simpl in E.
        destruct (100000 <? pt - clock m (ticks w)).
        + apply IH in E. destruct E as (F2 & P2 & T2).
          split; [exact F2 |]. rewrite P2, T2. split; reflexivity.
        + inversion E; subst.
          match goal with
          | |- context [publish_on_time ?r ?x ?n ?e ?d] =>
              destruct (publish_on_time_sends r x n e d) as (F & P & T)
          end.
          split; [exact F |]. rewrite P, T. split; reflexivity. }
    apply IH in E. exact E.
Qed.

(* doPublish: an envelope whose play time is before requested_start_time_
   leaves everything as it was; any other is advertised first, and is
   published exactly once by the time the call returns. *)
Lemma doPublish_sends m rp w keys name msg pt rt st rp' w' keys' :
  doPublish m rp w keys name msg pt rt = (st, rp', w', keys') ->
  same_frame rp w rp' w' /\
  (pt < requested_start_time_ rp ->
   st = Returned /\ rp' = rp /\ w' = w /\ keys' = keys) /\
  (requested_start_time_ rp <= pt ->
   publishes (trace w') = sent_by st name msg ++ publishes (trace w) /\
   touched (trace w') = map fst (sent_by st name msg) ++ name :: touched (trace w)).
Proof.
  unfold doPublish. intros E.
  destruct (pt <? requested_start_time_ rp) eqn:Hlt.
  - apply Z.ltb_lt in Hlt. inversion E; subst.
    split; [apply same_frame_refl |]. split; [repeat split | lia].
  - apply Z.ltb_ge in Hlt.
    match type of E with
    | (let (rp1, w1) := ?pre in _) = _ => destruct pre as [rp1 w1] eqn:Epre
    end.
    assert (Hpre : same_frame rp w rp1 w1 /\
                   publishes (trace w1) = publishes (trace w) /\
                   touched (trace w1) = touched (trace w) /\
                   queue_size_ rp1 = queue_size_ rp).
    { revert Epre. unfold same_frame. destruct rp; simpl.
      split_ifs; intros Epre; inversion Epre; subst; simpl; repeat split. }
    clear Epre. destruct Hpre as (F1 & P1 & T1 & Q1).
    unfold advertise in E.
    match type of E with
    | (let (rp2, w3) := ?adv in _) = _ => destruct adv as [rp2 w3] eqn:Eadv
    end.
    assert (Hadv : same_frame rp1 w1 rp2 w3 /\
                   publishes (trace w3) = publishes (trace w1) /\
                   touched (trace w3) = name :: touched (trace w1)).
    { revert Eadv. unfold same_frame, emit_if. destruct rp1; simpl.
      split_ifs; intros Eadv; inversion Eadv; subst; simpl; repeat split. }
    clear Eadv. destruct Hadv as (F2 & P2 & T2).
    assert (F12 : same_frame rp w rp2 w3) by (eapply same_frame_trans; eassumption).
    split; [| split; [lia |]].
    + destruct (at_once_ rp2); simpl in E.
      * inversion E; subst. eapply same_frame_trans; [exact F12 |].
        unfold same_frame. simpl. repeat split.
      * match type of E with
        | (if ?c then _ else _) = _ => destruct c
        end.
        -- apply wait_loop_sends in E. destruct E as (F3 & _).
           eapply same_frame_trans; [exact F12 |].
           eapply same_frame_trans; [| exact F3].
           unfold same_frame. simpl. repeat split.
        -- inversion E; subst.
           eapply same_frame_trans; [exact F12 |].
           match goal with
           | |- context [publish_on_time ?r ?x ?n ?e ?d] =>
               destruct (publish_on_time_sends r x n e d) as (F & _)
           end.
           eapply same_frame_trans; [| exact F].
           unfold same_frame. simpl. repeat split.
    + intros _. destruct (at_once_ rp2); simpl in E.
      * inversion E; subst. simpl. rewrite P2, T2, P1, T1. split; reflexivity.
      * match type of E with
        | (if ?c then _ else _) = _ => destruct c
        end.
        -- apply wait_loop_sends in E. destruct E as (_ & P3 & T3).
           simpl in P3, T3. rewrite P3, T3, P2, T2, P1, T1. split; reflexivity.
        -- inversion E; subst.
           match goal with
           | |- context [publish_on_time ?r ?x ?n ?e ?d] =>
               destruct (publish_on_time_sends r x n e d) as (_ & P & T)
           end.
           rewrite P, T. simpl. rewrite P2, T2, P1, T1. split; reflexivity.
Qed.

Lemma play_loop_frame m :
  forall cursor rp w keys st rp' w' keys',
    play_loop m cursor rp w keys = (st, rp', w', keys') ->
    same_frame rp w rp' w'.
Proof.
  induction cursor as [| e cursor IH]; intros rp w keys st rp' w' keys' E; simpl in E.
  - inversion E; subst. apply same_frame_refl.
  - destruct (node_ok w); [| inversion E; subst; apply same_frame_refl].
    destruct (p_handler (player_ rp)); [| eapply IH; eassumption].
    destruct (doPublish m rp w keys (topic e) e (play_time (player_ rp) e)
                        (record_time e)) as [[[st1 rp1] w1] keys1] eqn:Ed.
    apply doPublish_sends in Ed. destruct Ed as (F1 & _).
    destruct st1.
    + eapply same_frame_trans; [exact F1 |]. eapply IH; eassumption.
    + inversion E; subst. exact F1.
Qed.

Lemma spin_frame m cursor rp w keys st rp' w' keys' :
  spin m cursor rp w keys = (st, rp', w', keys') ->
  same_frame rp w rp' w'.
Proof.
  unfold spin. intros E.
  destruct (node_ok w); [| inversion E; subst; apply same_frame_refl].
  destruct (play_loop m cursor rp (emit_if (negb (quiet_ rp)) (Stdout "") w) keys)
    as [[[st1 rp1] w1] keys1] eqn:Ep.
  apply play_loop_frame in Ep.
  assert (F0 : same_frame rp w rp (emit_if (negb (quiet_ rp)) (Stdout "") w)).
  { unfold same_frame, emit_if. destruct (negb (quiet_ rp)); simpl; repeat split. }
  destruct st1; inversion E; subst.
  - eapply same_frame_trans; [exact F0 |].
    eapply same_frame_trans; [exact Ep |].
    unfold same_frame. simpl. repeat split.
  - eapply same_frame_trans; eassumption.
Qed.

(* ---- the option loop of the constructor ---- *)

Lemma is_opt_letter c l : is_opt c l = true -> String c EmptyString = l.
Proof. unfold is_opt. apply String.eqb_eq. Qed.

Ltac opt_cases :=
  repeat match goal with
         | |- context [is_opt ?c ?l] =>
             let H := fresh "Hopt" in
             destruct (is_opt c l) eqn:H;
             [ apply is_opt_letter in H; inversion H; subst c; simpl in * | ]
         end.

Lemma ctor_options_frame :
  forall evs rp time w,
    match ctor_options evs rp time w with
    | inl (rp', _, w') =>
        tty w' = tty w /\ orig_flags_ rp' = orig_flags_ rp /\ player_ rp' = player_ rp
    | inr (rp', w') =>
        tty w' = tty w /\ orig_flags_ rp' = orig_flags_ rp /\ player_ rp' = player_ rp
    end.
Proof.
  induction evs as [| ev evs IH]; intros rp time w; simpl.
  - repeat split.
  - destruct ev as [c optarg | c]; [| simpl; repeat split].
    repeat match goal with
           | |- context [if is_opt c ?l then _ else _] => destruct (is_opt c l)
           end;
      try (simpl; repeat split; fail);
      match goal with
      | |- context [ctor_options evs ?r ?t ?x] =>
          specialize (IH r t x); destruct (ctor_options evs r t x) as [[[? ?] ?] | [? ?]];
          simpl in IH; exact IH
      end.
Qed.

Lemma RosPlay_new_terminal m argv w rp cursor w' :
  RosPlay_new m argv w = (rp, cursor, w') ->
  tty w' = raw_flags (tty w) /\ orig_flags_ rp = tty w.
Proof.
  unfold RosPlay_new.
  destruct (getopt_scan (posix m) "ncahpb:r:s:t:q:" (tl argv)) as [evs bags].
  pose proof (ctor_options_frame evs (initial_RosPlay (tty w)) None
                (tcsetattr (raw_flags (tty w)) w)) as Hc.
  destruct (ctor_options evs (initial_RosPlay (tty w)) None
              (tcsetattr (raw_flags (tty w)) w)) as [[[rp1 time] w1] | [rp1 w1]];
    simpl in Hc; destruct Hc as (Ht & Ho & _).
  - destruct bags as [| b bags].
    + intros E; inversion E; subst. simpl. split; assumption.
    + destruct (bag_time_ rp1 && (1 <? Z.of_nat (length (b :: bags))))%bool.
      * intros E; inversion E; subst. simpl. split; assumption.
      * unfold emit_if. simpl.
        destruct (player_open m (b :: bags) _ (Qvalue (time_scale_ rp1))) as [pl cur].
        destruct rp1; simpl in *.
        split_ifs; intros E; inversion E; subst; simpl; split; auto.
  - intros E; inversion E; subst. split; assumption.
Qed.

Lemma clear_icanon x : Z.land (Z.land x (Z.lnot ICANON)) ICANON = 0.
Proof.
  rewrite <- Z.land_assoc.
  change (Z.land (Z.lnot ICANON) ICANON) with 0. apply Z.land_0_r.
Qed.

Lemma keep_echo x : Z.land (Z.land x (Z.lnot ICANON)) ECHO = Z.land x ECHO.
Proof.
  rewrite <- Z.land_assoc.
  change (Z.land (Z.lnot ICANON) ECHO) with ECHO. reflexivity.
Qed.

Lemma keep_other_bits x i :
  i <> 1 -> Z.testbit (Z.land x (Z.lnot ICANON)) i = Z.testbit x i.
Proof.
  intros Hi. rewrite Z.land_spec.
  destruct (Z.ltb_spec i 0) as [Hneg | Hpos].
  - rewrite (Z.testbit_neg_r x i Hneg). reflexivity.
  - rewrite Z.lnot_spec by exact Hpos.
    change ICANON with (2 ^ 1). rewrite Z.pow2_bits_eqb by lia.
    destruct (Z.eqb_spec 1 i); [lia |]. simpl. apply andb_true_r.
Qed.

(** C6 (amended): the constructor saves the terminal settings of stdin in
    orig_flags_ and installs a copy that differs only in the ICANON bit of
    c_lflag, which is cleared, and in c_cc[VMIN] and c_cc[VTIME], which
    are 0: the terminal is non-canonical while the player runs, the ECHO
    bit and every other field are as they were; spin leaves the terminal
    and orig_flags_ alone; and the destructor puts back exactly the
    settings captured at construction, in whatever world it runs. *)
Theorem terminal_guard (m : Machine) (argv : list string) (w : World)
        (rp : RosPlay) (cursor : list Envelope) (w' : World) :
  RosPlay_new m argv w = (rp, cursor, w') ->
  (tty w' = raw_flags (tty w) /\ orig_flags_ rp = tty w) /\
  (Z.land (c_lflag (tty w')) ICANON = 0 /\
   Z.land (c_lflag (tty w')) ECHO = Z.land (c_lflag (tty w)) ECHO /\
   forall i, i <> 1 -> Z.testbit (c_lflag (tty w')) i = Z.testbit (c_lflag (tty w)) i) /\
  (c_iflag (tty w') = c_iflag (tty w) /\ c_oflag (tty w') = c_oflag (tty w) /\
   c_cflag (tty w') = c_cflag (tty w) /\ c_line (tty w') = c_line (tty w) /\
   c_ispeed (tty w') = c_ispeed (tty w) /\ c_ospeed (tty w') = c_ospeed (tty w)) /\
  (((VMIN < length (c_cc (tty w)))%nat ->
    c_cc (tty w') !! VMIN = Some 0 /\ c_cc (tty w') !! VTIME = Some 0) /\
   length (c_cc (tty w')) = length (c_cc (tty w)) /\
   forall i : nat, i <> VMIN -> i <> VTIME -> c_cc (tty w') !! i = c_cc (tty w) !! i) /\
  (forall keys st rp1 w1 keys1,
      spin m cursor rp w' keys = (st, rp1, w1, keys1) ->
      tty w1 = tty w' /\ orig_flags_ rp1 = tty w /\
      forall w2, tty (RosPlay_delete rp1 w2) = tty w).
Proof.
  intros E. apply RosPlay_new_terminal in E. destruct E as [Ht Ho].
  split; [split; assumption |]. rewrite Ht. simpl.
  split; [| split; [| split]].
  - split; [apply clear_icanon |]. split; [apply keep_echo |].
    intros i Hi. apply keep_other_bits. exact Hi.
  - repeat split.
  - split; [| split].
    + intros Hlen. split.
      * rewrite list_lookup_insert_ne by (unfold VMIN, VTIME; lia).
        apply list_lookup_insert_eq. exact Hlen.
      * apply list_lookup_insert_eq. rewrite length_insert.
        unfold VMIN, VTIME in *. lia.
    + rewrite !length_insert. reflexivity.
    + intros i Hmin Htime.
      rewrite list_lookup_insert_ne by congruence.
      apply list_lookup_insert_ne. congruence.
  - intros keys st rp1 w1 keys1 Es. apply spin_frame in Es.
    destruct Es as (F1 & _ & F3 & _).
    split; [rewrite F1; exact Ht |]. split; [congruence |].
    intros w2. simpl. congruence.
Qed.

Lemma terminal_guard_witness :
  let '(rp, cursor, w') := sample_start in
  tty w' = raw_flags cooked_tty /\
  Z.land (c_lflag (tty w')) ICANON = 0 /\
  c_cc (tty w') !! VMIN = Some 0 /\
  c_cc (tty w') !! VTIME = Some 0 /\
  orig_flags_ rp = cooked_tty.
Proof.
  destruct sample_start as [[rp cursor] w'] eqn:E.
  destruct (terminal_guard (sample_machine []) ["rosplay"; "a.bag"] live_world
              rp cursor w' E) as ((Ht & Ho) & (Hc & _) & _ & (Hcc & _) & _).
  destruct Hcc as [Hmin Htime]; [simpl; unfold VMIN; lia |].
  repeat split; assumption.
Defined.

(* C6 as stated asks for no-echo mode: on a terminal that echoes, the
   ECHO bit is still set after the constructor has run. *)
Lemma echo_still_on :
  Z.land (c_lflag cooked_tty) ECHO = ECHO /\
  Z.land (c_lflag (tty (snd sample_start))) ECHO = ECHO /\
  Z.land (c_lflag (tty (snd sample_start))) ECHO <> 0.
Proof. vm_compute. split; [reflexivity |]. split; [reflexivity | discriminate]. Qed.

(* ---- the option loop of check mode ---- *)

Lemma check_options_find :
  forall evs w,
    check_options evs w =
    match find decisive evs with
    | None => inl w
    | Some ev =>
        if is_rejected ev then inr (1, emit (Stderr (rejection_text ev)) w)
        else match ev with
             | BadOpt c => inr (0, print_usage (emit (GetoptError c) w))
             | Opt _ _ => inr (0, print_help w)
             end
    end.
Proof.
  induction evs as [| ev evs IH]; intros w; [reflexivity |].
  destruct ev as [c optarg | c]; [| reflexivity].
  simpl. unfold decisive, is_rejected, is_help.
  opt_cases; simpl; try reflexivity; apply IH.
Qed.

(** C1 (amended): main returns 1 exactly when rosplay is in check mode
    (some argument is "-c") and either the first option that is not 'c' is
    one of -a, -p, -t, -q, or the options are scanned to the end and more
    than one bag remains; every other run that returns from main returns 0,
    among them every run outside check mode and the check of a single bag,
    whether or not the bag can be opened.  Check mode with no bag at all
    does not return (std::string from a null pointer), and outside check
    mode the player may still be polling the keyboard. *)
Theorem main_exit_code (m : Machine) (argv : list string)
        (evs : list optev) (operands : list string) :
  getopt_scan (posix m) "cahpt:q:" (tl argv) = (evs, operands) ->
  let check_bag := existsb (String.eqb "-c") argv in
  let rejected :=
    match find decisive evs with
    | Some ev => is_rejected ev
    | None => 1 <? Z.of_nat (length operands)
    end in
  match exit_of (main m argv) with
  | Exit code => code = if (check_bag && rejected)%bool then 1 else 0
  | Aborted => check_bag = true /\ find decisive evs = None /\ operands = []
  | StillPolling => check_bag = false
  end
  /\ (check_bag = true -> find decisive evs = None ->
      forall bag, operands = [bag] -> exit_of (main m argv) = Exit 0).
Proof.
  intros Hscan check_bag rejected. subst check_bag rejected. unfold main.
  destruct (existsb (String.eqb "-c") argv) eqn:Hc.
  - unfold check_bag_main. rewrite Hscan, check_options_find.
    destruct (find decisive evs) as [ev |] eqn:Hf.
    + split; [| discriminate].
      destruct (is_rejected ev); [reflexivity |].
      destruct ev; reflexivity.
    + destruct operands as [| bag [| bag2 operands]].
      * split; [repeat split | discriminate].
      * split.
        -- simpl. destruct (player_open m [bag] 0 1%Q). reflexivity.
        -- intros _ _ b Hb. simpl. destruct (player_open m [bag] 0 1%Q). reflexivity.
      * split; [| discriminate].
        replace (1 <? Z.of_nat (length (bag :: bag2 :: operands))) with true.
        -- reflexivity.
        -- symmetry. apply Z.ltb_lt. simpl length. lia.
  - split; [| discriminate]. simpl.
    destruct (RosPlay_new m argv _) as [[rp cursor] w2].
    destruct (spin m cursor rp w2 (stdin_keys m)) as [[[st rp'] w3] keys'].
    destruct st; reflexivity.
Qed.

Lemma main_exit_code_witness :
  exit_of (main (sample_machine []) ["rosplay"; "-c"; "missing.bag"]) = Exit 0.
Proof.
  destruct (main_exit_code (sample_machine []) ["rosplay"; "-c"; "missing.bag"]
              [Opt "c" None] ["missing.bag"] eq_refl) as [_ H].
  apply (H eq_refl eq_refl "missing.bag" eq_refl).
Defined.

(* C1 as stated: a check of a bag that cannot be opened should exit with
   1, and invalid arguments should; both exit with 0. *)
Lemma check_unopenable_bag_exits_0 :
  files (sample_machine []) "missing.bag" = None /\
  exit_of (main (sample_machine []) ["rosplay"; "-c"; "missing.bag"]) = Exit 0 /\
  exit_of (main (sample_machine []) ["rosplay"; "-c"; "-x"; "a.bag"]) = Exit 0 /\
  exit_of (main (sample_machine []) ["rosplay"]) = Exit 0.
Proof. vm_compute. repeat split. Qed.

(** C3 (amended): in every run with an argument "-c", no node is created,
    no topic is advertised and no message is published.  If the first
    option that is not 'c' is one of -a, -p, -t, -q, the only output is
    "Option -x is not valid when checking bag" on stderr and main returns
    1; if the options are scanned to the end without -h or an unknown
    option and more than one bag remains, the only output is "Only 1 bag
    can be checked at a time" and main returns 1.  (When -h or a character
    outside "cahpt:q:" comes first, see C1: usage or help, and 0.) *)
Theorem check_mode_rejects (m : Machine) (argv : list string)
        (evs : list optev) (operands : list string) :
  existsb (String.eqb "-c") argv = true ->
  getopt_scan (posix m) "cahpt:q:" (tl argv) = (evs, operands) ->
  (existsb creates_node (trace (world_of (main m argv))) = false /\
   touched (trace (world_of (main m argv))) = []) /\
  (forall ev, find decisive evs = Some ev -> is_rejected ev = true ->
     exit_of (main m argv) = Exit 1 /\
     trace (world_of (main m argv)) = [Stderr (rejection_text ev)]) /\
  (find decisive evs = None -> (1 < length operands)%nat ->
     exit_of (main m argv) = Exit 1 /\
     trace (world_of (main m argv)) = [Stderr "Only 1 bag can be checked at a time"]).
Proof.
  intros Hc Hscan. unfold main. rewrite Hc.
  unfold check_bag_main. rewrite Hscan, check_options_find.
  destruct (find decisive evs) as [ev |] eqn:Hf.
  - split; [| split; [| discriminate]].
    + destruct (is_rejected ev); [split; reflexivity |].
      destruct ev; split; reflexivity.
    + intros ev' Hev' Hrej. inversion Hev'; subst ev'. rewrite Hrej.
      split; reflexivity.
  - split; [| split; [discriminate |]].
    + destruct (1 <? Z.of_nat (length operands)); [split; reflexivity |].
      destruct operands as [| bag operands]; [split; reflexivity |].
      destruct (player_open m [bag] 0 1%Q). split; reflexivity.
    + intros _ Hlen.
      replace (1 <? Z.of_nat (length operands)) with true
        by (symmetry; apply Z.ltb_lt; lia).
      split; reflexivity.
Qed.

Lemma check_mode_rejects_witness :
  exit_of (main (sample_machine []) ["rosplay"; "-c"; "-t"; "5"; "a.bag"]) = Exit 1 /\
  trace (world_of (main (sample_machine []) ["rosplay"; "-c"; "-t"; "5"; "a.bag"]))
    = [Stderr "Option -t is not valid when checking bag"] /\
  exit_of (main (sample_machine []) ["rosplay"; "-c"; "a.bag"; "b.bag"]) = Exit 1.
Proof.
  destruct (check_mode_rejects (sample_machine [])
              ["rosplay"; "-c"; "-t"; "5"; "a.bag"]
              [Opt "c" None; Opt "t" (Some "5")] ["a.bag"] eq_refl eq_refl)
    as (_ & Hopt & _).
  destruct (Hopt (Opt "t" (Some "5")) eq_refl eq_refl) as [He Ht].
  destruct (check_mode_rejects (sample_machine [])
              ["rosplay"; "-c"; "a.bag"; "b.bag"]
              [Opt "c" None] ["a.bag"; "b.bag"] eq_refl eq_refl)
    as (_ & _ & Hbags).
  destruct Hbags as [He2 _]; [reflexivity | simpl; lia |].
  split; [exact He |]. split; [exact Ht | exact He2].
Defined.

(* C3 as stated: with -c, option -a and two bags should give a descriptive
   error and exit code 1.  After -n, which check mode does not know, usage
   is printed and main returns 0; the same after -h. *)
Lemma check_mode_usage_exits_0 :
  existsb (String.eqb "-c") ["rosplay"; "-c"; "-n"; "-a"; "a.bag"; "b.bag"] = true /\
  In "-a" ["rosplay"; "-c"; "-n"; "-a"; "a.bag"; "b.bag"] /\
  exit_of (main (sample_machine []) ["rosplay"; "-c"; "-n"; "-a"; "a.bag"; "b.bag"])
    = Exit 0 /\
  stderr_lines
    (trace (world_of (main (sample_machine [])
                           ["rosplay"; "-c"; "-n"; "-a"; "a.bag"; "b.bag"])))
    = [usage_text] /\
  exit_of (main (sample_machine []) ["rosplay"; "-c"; "-h"; "-a"; "a.bag"; "b.bag"])
    = Exit 0.
Proof.
  split; [reflexivity |]. split; [simpl; tauto |].
  vm_compute. repeat split.
Qed.

(* ---- the constructor ---- *)

Lemma ctor_options_run :
  forall evs rp time w,
    match ctor_options evs rp time w with
    | inl (rp', _, w') =>
        find is_help evs = None /\
        bag_time_ rp' = (bag_time_ rp || existsb sets_bag_time evs)%bool /\
        existsb opens_bag (trace w') = existsb opens_bag (trace w) /\
        touched (trace w') = touched (trace w) /\
        stderr_lines (trace w') = stderr_lines (trace w)
    | inr (rp', w') =>
        find is_help evs <> None /\
        node_ok w' = false /\
        In Shutdown (trace w') /\
        In usage_text (stderr_lines (trace w')) /\
        existsb opens_bag (trace w') = existsb opens_bag (trace w) /\
        touched (trace w') = touched (trace w)
    end.
Proof.
  induction evs as [| ev evs IH]; intros rp time w.
  - simpl. rewrite orb_false_r. repeat split.
  - destruct ev as [c optarg | c].
    2:{ simpl. repeat split; try discriminate; auto. }
    simpl. unfold is_help at 1. unfold sets_bag_time at 1.
    opt_cases; simpl;
      try match goal with
          | |- context [ctor_options evs ?r ?t ?x] =>
              specialize (IH r t x);
              destruct (ctor_options evs r t x) as [[[rp' time'] w'] | [rp' w']];
              simpl in IH; rewrite ?orb_true_r, ?orb_false_r in *; exact IH
          end.
    + split; [discriminate |]. split; [reflexivity |]. split; [left; reflexivity |].
      split; [do 10 right; left; reflexivity |]. split; reflexivity.
Qed.

(** C10 (amended): for every invocation outside check mode whose options
    include -b and which names more than one bag file, the constructor
    shuts the node down without opening any bag, and main returns 0 with
    no topic advertised and no message published.  When the options are
    scanned to the end, stderr gets "You can only play one single bag when
    using bag time [-b]." and the usage line, and nothing else; when -h or
    an unknown option stops the scan first, the usage line is printed as
    part of the help or on its own instead of that error. *)
Theorem bag_time_needs_single_bag (m : Machine) (argv : list string)
        (evs : list optev) (bags : list string) :
  existsb (String.eqb "-c") argv = false ->
  getopt_scan (posix m) "ncahpb:r:s:t:q:" (tl argv) = (evs, bags) ->
  existsb sets_bag_time evs = true ->
  (1 < length bags)%nat ->
  exit_of (main m argv) = Exit 0 /\
  node_ok (world_of (main m argv)) = false /\
  In Shutdown (trace (world_of (main m argv))) /\
  existsb opens_bag (trace (world_of (main m argv))) = false /\
  touched (trace (world_of (main m argv))) = [] /\
  In usage_text (stderr_lines (trace (world_of (main m argv)))) /\
  (find is_help evs = None ->
   stderr_lines (trace (world_of (main m argv))) =
     [usage_text; "You can only play one single bag when using bag time [-b]."]).
Proof.
  intros Hc Hscan Hb Hlen. unfold main. rewrite Hc.
  unfold RosPlay_new. rewrite Hscan.
  match goal with
  | |- context [ctor_options evs ?r ?t ?x] =>
      pose proof (ctor_options_run evs r t x) as Hrun;
      destruct (ctor_options evs r t x) as [[[rp time] w1] | [rp w1]]
  end.
  - destruct Hrun as (Hfind & Hbt & Hopen & Htouch & Herr).
    simpl in Hbt. rewrite Hb in Hbt.
    destruct bags as [| b0 [| b1 bags]]; [simpl in Hlen; lia | simpl in Hlen; lia |].
    rewrite Hbt.
    replace (1 <? Z.of_nat (length (b0 :: b1 :: bags))) with true
      by (symmetry; apply Z.ltb_lt; simpl length; lia).
    simpl. rewrite Hopen, Htouch, Herr. simpl.
    repeat split; auto.
  - destruct Hrun as (Hfind & Hok & Hshut & Husage & Hopen & Htouch).
    unfold spin. rewrite Hok. simpl. rewrite Hopen, Htouch. simpl.
    repeat split; auto. intros Hnone. contradiction.
Qed.

Lemma bag_time_needs_single_bag_witness :
  exit_of (main (sample_machine []) ["rosplay"; "-b"; "10"; "a.bag"; "b.bag"]) = Exit 0 /\
  stderr_lines
    (trace (world_of (main (sample_machine []) ["rosplay"; "-b"; "10"; "a.bag"; "b.bag"])))
    = [usage_text; "You can only play one single bag when using bag time [-b]."] /\
  touched
    (trace (world_of (main (sample_machine []) ["rosplay"; "-b"; "10"; "a.bag"; "b.bag"])))
    = [].
Proof.
  destruct (bag_time_needs_single_bag (sample_machine [])
              ["rosplay"; "-b"; "10"; "a.bag"; "b.bag"]
              [Opt "b" (Some "10")] ["a.bag"; "b.bag"] eq_refl eq_refl eq_refl)
    as (He & _ & _ & _ & Ht & _ & Herr).
  - simpl. lia.
  - split; [exact He |]. split; [apply Herr; reflexivity | exact Ht].
Defined.

(* C10 as stated: with -b and two bags the player should print an error.
   When -h follows -b, what is printed is the help text, and the error
   about bag time is not. *)
Lemma bag_time_help_instead_of_error :
  getopt_scan false "ncahpb:r:s:t:q:" ["-b"; "10"; "-h"; "a.bag"; "b.bag"]
    = ([Opt "b" (Some "10"); Opt "h" None], ["a.bag"; "b.bag"]) /\
  stderr_lines
    (trace (world_of (main (sample_machine [])
                           ["rosplay"; "-b"; "10"; "-h"; "a.bag"; "b.bag"])))
    = rev (usage_text :: help_text) /\
  ~ In "You can only play one single bag when using bag time [-b]."
       (stderr_lines
          (trace (world_of (main (sample_machine [])
                                 ["rosplay"; "-b"; "10"; "-h"; "a.bag"; "b.bag"])))).
Proof.
  split; [reflexivity |]. split; [vm_compute; reflexivity |].
  vm_compute. intros H.
  repeat match type of H with
         | _ \/ _ => destruct H as [H | H]; [discriminate H |]
         end.
  exact H.
Qed.

(* ---- play time and the start offset ---- *)

(** C4 (code defect): the handler does not drop by record time.  doPublish
    tests the play time it is handed against requested_start_time_, and the
    constructor starts the player float_time before that time whatever the
    time scale is, with float_time the float nearest to the double that
    atof read.
    With rosplay -a -r 2 -t 5 a.bag, where a.bag holds envelopes recorded
    0 s, 7 s and 11 s into the file, the offset asked for is 5 s and the
    second envelope is not before it; its play time is 1.5 s before
    requested_start_time_, the handler returns at once on it, and the run
    neither advertises nor publishes it: only the third envelope is
    published.
    With rosplay -a -t 0.1 b.bag, where b.bag holds envelopes recorded 0 s,
    0.1 s and 0.2 s into the file, float_time is 13421773 / 2^27, above
    0.1, the player starts 100000002 ns early, and the envelope recorded
    exactly 0.1 s into the file is dropped as well. *)
Theorem scaled_replay_drops_later_envelope :
  (start_offset (float_time_of (Some "5")) = 5000000000 /\
   time_scale_ (fst (fst scaled_start)) = atof "2" /\
   record_time e_odom - first_record_time sample_bag = 7000000000 /\
   play_time (player_ (fst (fst scaled_start))) e_odom
     = requested_start_time_ (fst (fst scaled_start)) - 1500000000 /\
   doPublish (sample_machine []) (fst (fst scaled_start)) (snd scaled_start) []
             "/odom" e_odom
             (play_time (player_ (fst (fst scaled_start))) e_odom) (record_time e_odom)
     = (Returned, fst (fst scaled_start), snd scaled_start, []) /\
   exit_of (main (sample_machine []) scaled_argv) = Exit 0 /\
   ~ In "/odom" (touched (trace (world_of (main (sample_machine []) scaled_argv)))) /\
   publishes (trace (world_of (main (sample_machine []) scaled_argv)))
     = [("/scan", e_scan1)]) /\
  (float_time_of (Some "0.1") = S754_finite false 13421773 (-27) /\
   start_offset (float_time_of (Some "0.1")) = 100000002 /\
   record_time e_tenth - first_record_time tenth_bag = 100000000 /\
   exit_of (main tenth_machine tenth_argv) = Exit 0 /\
   ~ In "/b" (touched (trace (world_of (main tenth_machine tenth_argv)))) /\
   publishes (trace (world_of (main tenth_machine tenth_argv)))
     = [("/c", e_fifth)]).
Proof.
  split.
  - split; [vm_compute; reflexivity |].
    split; [vm_compute; reflexivity |].
    split; [vm_compute; reflexivity |].
    split; [vm_compute; reflexivity |].
    split; [vm_compute; reflexivity |].
    split; [vm_compute; reflexivity |].
    split; [| vm_compute; reflexivity].
    vm_compute. intros H.
    repeat match type of H with
           | _ \/ _ => destruct H as [H | H]; [discriminate H |]
           end.
    exact H.
  - split; [vm_compute; reflexivity |].
    split; [vm_compute; reflexivity |].
    split; [vm_compute; reflexivity |].
    split; [vm_compute; reflexivity |].
    split; [| vm_compute; reflexivity].
    vm_compute. intros H.
    repeat match type of H with
           | _ \/ _ => destruct H as [H | H]; [discriminate H |]
           end.
    exact H.
Qed.

(* ---- stepping while paused ---- *)

(* While paused, keys other than ' ' and 's' change nothing but the time
   slept; the next 's' publishes the envelope and returns. *)
Lemma wait_loop_step m name msg rt rest :
  forall idle rp w pt,
    paused_ rp = true ->
    Forall idle_key idle ->
    exists w',
      wait_loop m (idle ++ 115 :: rest) rp w name msg pt rt
      = (Returned, set_shifted true rp, w', rest).
Proof.
  induction idle as [| k idle IH]; intros rp w pt Hp Hidle.
  - simpl. rewrite Hp. eexists. reflexivity.
  - inversion Hidle as [| ? ? [H32 H115] Hrest]; subst.
    simpl.
    destruct (Z.eqb_spec (to_char k) 32) as [? | _]; [contradiction |].
    destruct (Z.eqb_spec (to_char k) 115) as [? | _]; [contradiction |].
    rewrite Hp.
    destruct (to_char k =? EOF); apply IH; assumption.
Qed.

Lemma play_time_shift p d e : play_time (shiftTime d p) e = play_time p e + d.
Proof. unfold play_time, shiftTime. simpl. lia. Qed.

(* The part of doPublish before the keyboard loop, for an envelope that is
   not dropped, on a player that is not in all-at-once mode. *)
Lemma doPublish_reaches_loop m rp w keys name msg pt rt :
  at_once_ rp = false ->
  node_ok w = true ->
  requested_start_time_ rp <= pt ->
  paused_ rp = true ->
  exists rp2 w2,
    doPublish m rp w keys name msg pt rt = wait_loop m keys rp2 w2 name msg pt rt /\
    paused_ rp2 = true /\
    publishes (trace w2) = publishes (trace w) /\
    ((forall k, clock m k <= clock m (S k)) ->
     forall e, play_time (player_ rp) e <= play_time (player_ rp2) e).
Proof.
  intros Ha Hok Hge Hp. unfold doPublish.
  replace (pt <? requested_start_time_ rp) with false by (symmetry; apply Z.ltb_ge; lia).
  unfold advertise, emit_if. destruct rp; simpl in *. subst.
  split_ifs; try congruence;
    (eexists; eexists; split; [reflexivity |]; simpl;
     split; [reflexivity |]; split; [reflexivity |];
     intros Hclock e; rewrite ?play_time_shift;
     repeat match goal with
            | |- context [clock m (S ?k)] =>
                lazymatch goal with
                | H : clock m k <= clock m (S k) |- _ => fail
                | _ => pose proof (Hclock k)
                end
            end; lia).
Qed.

Lemma doPublish_step m rp w idle rest name msg pt rt :
  paused_ rp = true ->
  at_once_ rp = false ->
  node_ok w = true ->
  requested_start_time_ rp <= pt ->
  Forall idle_key idle ->
  exists rp' w',
    doPublish m rp w (idle ++ 115 :: rest) name msg pt rt = (Returned, rp', w', rest) /\
    paused_ rp' = true /\
    publishes (trace w') = (name, msg) :: publishes (trace w) /\
    same_frame rp w rp' w' /\
    ((forall k, clock m k <= clock m (S k)) ->
     forall e, play_time (player_ rp) e <= play_time (player_ rp') e).
Proof.
  intros Hp Ha Hok Hge Hidle.
  destruct (doPublish_reaches_loop m rp w (idle ++ 115 :: rest) name msg pt rt
              Ha Hok Hge Hp) as (rp2 & w2 & Hdo & Hp2 & Hpub2 & Htime2).
  destruct (wait_loop_step m name msg rt rest idle rp2 w2 pt Hp2 Hidle) as [w' Hloop].
  exists (set_shifted true rp2), w'.
  assert (Hall : doPublish m rp w (idle ++ 115 :: rest) name msg pt rt
                 = (Returned, set_shifted true rp2, w', rest)) by congruence.
  split; [exact Hall |].
  split; [destruct rp2; exact Hp2 |].
  split.
  - apply wait_loop_sends in Hloop. destruct Hloop as (_ & Hpub & _).
    rewrite Hpub, Hpub2. reflexivity.
  - split.
    + apply doPublish_sends in Hall. destruct Hall as (F & _). exact F.
    + intros Hclock e. destruct rp2; simpl in *. apply Htime2. exact Hclock.
Qed.

(* With nothing typed, a paused player publishes nothing more. *)
Lemma play_loop_starved m :
  forall cursor rp w st rp' w' keys',
    paused_ rp = true ->
    at_once_ rp = false ->
    play_loop m cursor rp w [] = (st, rp', w', keys') ->
    paused_ rp' = true /\ publishes (trace w') = publishes (trace w).
Proof.
  induction cursor as [| e cursor IH]; intros rp w st rp' w' keys' Hp Ha E; simpl in E.
  - inversion E; subst. split; [assumption | reflexivity].
  - destruct (node_ok w) eqn:Hok; [| inversion E; subst; split; [assumption | reflexivity]].
    destruct (p_handler (player_ rp)); [| eapply IH; eassumption].
    destruct (Z.lt_ge_cases (play_time (player_ rp) e) (requested_start_time_ rp))
      as [Hlt | Hge].
    + destruct (doPublish m rp w [] (topic e) e (play_time (player_ rp) e) (record_time e))
        as [[[st1 rp1] w1] keys1] eqn:Ed.
      apply doPublish_sends in Ed. destruct Ed as (_ & Hdrop & _).
      destruct (Hdrop Hlt) as (-> & -> & -> & ->).
      eapply IH; eassumption.
    + destruct (doPublish_reaches_loop m rp w [] (topic e) e (play_time (player_ rp) e)
                  (record_time e) Ha Hok Hge Hp) as (rp2 & w2 & Hdo & Hp2 & Hpub2 & _).
      rewrite Hdo in E. simpl in E. inversion E; subst.
      split; assumption.
Qed.

Lemma play_loop_steps m more :
  forall es blocks rp w,
    paused_ rp = true ->
    at_once_ rp = false ->
    node_ok w = true ->
    p_handler (player_ rp) = true ->
    (forall k, clock m k <= clock m (S k)) ->
    Forall (fun e => requested_start_time_ rp <= play_time (player_ rp) e) es ->
    Forall (Forall idle_key) blocks ->
    length blocks = length es ->
    exists rp1 w1,
      play_loop m (es ++ more) rp w (presses blocks) = play_loop m more rp1 w1 [] /\
      paused_ rp1 = true /\
      at_once_ rp1 = false /\
      publishes (trace w1) = rev (map (fun e => (topic e, e)) es) ++ publishes (trace w).
Proof.
  induction es as [| e es IH]; intros blocks rp w Hp Ha Hok Hh Hclock Hplay Hidle Hlen.
  - destruct blocks; [| discriminate]. exists rp, w. simpl. repeat split; assumption.
  - destruct blocks as [| idle blocks]; [discriminate |].
    inversion Hplay as [| ? ? Hge Hplay']; subst.
    inversion Hidle as [| ? ? Hidle1 Hidle']; subst.
    change (presses (idle :: blocks)) with ((idle ++ [115]) ++ presses blocks).
    cbn [play_loop app]. rewrite Hok, Hh. rewrite <- app_assoc. cbn [app].
    destruct (doPublish_step m rp w idle (presses blocks) (topic e) e
                (play_time (player_ rp) e) (record_time e) Hp Ha Hok Hge Hidle1)
      as (rp' & w' & Hdo & Hp' & Hpub & F & Htime).
    rewrite Hdo.
    destruct F as (_ & Fok & _ & Fa & Freq & Fh).
    destruct (IH blocks rp' w') as (rp1 & w1 & Hrun & Hp1 & Ha1 & Hpub1);
      try congruence.
    + rewrite Freq. eapply Forall_impl; [exact Hplay' |].
      intros e0 He0. simpl in He0. specialize (Htime Hclock e0). lia.
    + simpl in Hlen. lia.
    + exists rp1, w1. split; [exact Hrun |]. split; [exact Hp1 |]. split; [exact Ha1 |].
      rewrite Hpub1, Hpub. simpl. rewrite <- app_assoc. reflexivity.
Qed.

(** C5: in every paused state of the player (paused_ set, not in
    all-at-once mode, node ok, the handler waiting on an envelope that is
    not dropped), a press of 's', after any keys other than ' ' and 's',
    makes the handler return having published the current envelope exactly
    once, with paused_ still set.  Hence when the keyboard delivers n
    presses of 's' and the bag has n envelopes es to come (and possibly
    more), spin's loop publishes exactly the n envelopes es, in order, each
    once, and paused_ is still set afterwards. *)
Theorem step_publishes_once (m : Machine) :
  (forall rp w idle rest name msg pt rt,
     paused_ rp = true ->
     at_once_ rp = false ->
     node_ok w = true ->
     requested_start_time_ rp <= pt ->
     Forall idle_key idle ->
     exists rp' w',
       doPublish m rp w (idle ++ 115 :: rest) name msg pt rt = (Returned, rp', w', rest) /\
       paused_ rp' = true /\
       publishes (trace w') = (name, msg) :: publishes (trace w)) /\
  (forall rp w es more blocks,
     paused_ rp = true ->
     at_once_ rp = false ->
     node_ok w = true ->
     p_handler (player_ rp) = true ->
     (forall k, clock m k <= clock m (S k)) ->
     Forall (fun e => requested_start_time_ rp <= play_time (player_ rp) e) es ->
     Forall (Forall idle_key) blocks ->
     length blocks = length es ->
     exists st rp' w' keys',
       play_loop m (es ++ more) rp w (presses blocks) = (st, rp', w', keys') /\
       paused_ rp' = true /\
       rev (publishes (trace w'))
         = rev (publishes (trace w)) ++ map (fun e => (topic e, e)) es).
Proof.
  split.
  - intros rp w idle rest name msg pt rt Hp Ha Hok Hge Hidle.
    destruct (doPublish_step m rp w idle rest name msg pt rt Hp Ha Hok Hge Hidle)
      as (rp' & w' & Hdo & Hp' & Hpub & _).
    exists rp', w'. repeat split; assumption.
  - intros rp w es more blocks Hp Ha Hok Hh Hclock Hplay Hidle Hlen.
    destruct (play_loop_steps m more es blocks rp w Hp Ha Hok Hh Hclock Hplay Hidle Hlen)
      as (rp1 & w1 & Hrun & Hp1 & Ha1 & Hpub1).
    destruct (play_loop m more rp1 w1 []) as [[[st rp'] w'] keys'] eqn:Erest.
    exists st, rp', w', keys'. split; [exact Hrun |].
    apply play_loop_starved in Erest; [| assumption | assumption].
    destruct Erest as (Hp' & Hpub'). split; [exact Hp' |].
    rewrite Hpub', Hpub1, rev_app_distr, rev_involutive. reflexivity.
Qed.

Lemma sample_clock_monotone keys k :
  clock (sample_machine keys) k <= clock (sample_machine keys) (S k).
Proof. simpl. lia. Qed.

(* Started paused on sample_bag: one press for the first envelope; then
   's', nothing, and 's' again over the whole bag. *)
Lemma step_publishes_once_witness :
  (exists rp' w',
     doPublish (sample_machine []) paused_player live_world ([-1; 120] ++ 115 :: [-1])
               "/scan" e_scan0 (play_time (player_ paused_player) e_scan0)
               (record_time e_scan0)
     = (Returned, rp', w', [-1]) /\
     paused_ rp' = true /\
     publishes (trace w') = ("/scan", e_scan0) :: publishes (trace live_world)) /\
  (exists st rp' w' keys',
     play_loop (sample_machine []) ([e_scan0; e_odom] ++ [e_scan1])
               paused_player live_world (presses [[]; [-1]])
     = (st, rp', w', keys') /\
     paused_ rp' = true /\
     rev (publishes (trace w'))
       = rev (publishes (trace live_world))
         ++ map (fun e => (topic e, e)) [e_scan0; e_odom]).
Proof.
  destruct (step_publishes_once (sample_machine [])) as [H1 Hn].
  split.
  - apply H1.
    + reflexivity.
    + reflexivity.
    + reflexivity.
    + vm_compute. discriminate.
    + repeat constructor; vm_compute; discriminate.
  - apply Hn.
    + reflexivity.
    + reflexivity.
    + reflexivity.
    + reflexivity.
    + apply sample_clock_monotone.
    + repeat constructor; vm_compute; discriminate.
    + repeat constructor; vm_compute; discriminate.
    + reflexivity.
Defined.

(* ---- check mode: the report ---- *)

Lemma to_int32_small z : - 2 ^ 31 <= z < 2 ^ 31 -> to_int32 z = z.
Proof. intros H. unfold to_int32. rewrite Z.mod_small; lia. Qed.

Lemma to_int64_wrap y k : - 2 ^ 63 <= y < 2 ^ 63 -> to_int64 (y + k * 2 ^ 64) = y.
Proof.
  intros H. unfold to_int64.
  replace (y + k * 2 ^ 64 + 2 ^ 63) with (y + 2 ^ 63 + k * 2 ^ 64) by lia.
  rewrite Z_mod_plus_full, Z.mod_small; lia.
Qed.

Lemma to_uint64_wrap z : exists k, to_uint64 z = z + k * 2 ^ 64.
Proof.
  exists (- (z / 2 ^ 64)). unfold to_uint64.
  rewrite Z.mod_eq by lia. lia.
Qed.

(* printf of end_time, start_time and length: the sum is formed in
   unsigned long long and read back with %lld. *)
Lemma report_times first d :
  - 2 ^ 62 < first < 2 ^ 62 ->
  - 2 ^ 62 < d < 2 ^ 62 ->
  to_int64 first = first /\
  to_int64 (to_uint64 d) = d /\
  to_int64 (to_uint64 (to_uint64 d + first)) = first + d.
Proof.
  intros Hf Hd.
  destruct (to_uint64_wrap d) as [k1 Hk1].
  destruct (to_uint64_wrap (to_uint64 d + first)) as [k2 Hk2].
  split; [| split].
  - replace first with (first + 0 * 2 ^ 64) at 1 by lia. apply to_int64_wrap. lia.
  - rewrite Hk1. apply to_int64_wrap. lia.
  - rewrite Hk2, Hk1.
    replace (d + k1 * 2 ^ 64 + first + k2 * 2 ^ 64)
      with (first + d + (k1 + k2) * 2 ^ 64) by lia.
    apply to_int64_wrap. lia.
Qed.

Lemma play_time_check (p : Player) (e : Envelope) :
  p_wall_start p = 0 ->
  p_time_scale p = 1%Q ->
  p_shift p = 0 ->
  play_time p e = record_time e - p_first_record_time p.
Proof.
  intros Hs Hscale Hshift. unfold play_time. rewrite Hs, Hscale, Hshift.
  rewrite (Qfloor_comp _ (inject_Z (record_time e - p_first_record_time p))).
  - rewrite Qfloor_Z. lia.
  - field.
Qed.

Lemma bearing_cons t e es :
  bearing t (e :: es) = if String.eqb (topic e) t then e :: bearing t es else bearing t es.
Proof. reflexivity. Qed.

Lemma bearing_length t es : (length (bearing t es) <= length es)%nat.
Proof. unfold bearing. apply List.filter_length_le. Qed.

(* g_content after the scan, for one topic. *)
Lemma scan_bag_content (p : Player) (t : string) :
  p_handler p = true ->
  forall es g,
    Z.of_nat (length es) < 2 ^ 31 ->
    (forall i, g_content g !! t = Some i ->
               0 < count i /\ count i + Z.of_nat (length es) < 2 ^ 31) ->
    g_content (scan_bag p es g) !! t =
    match g_content g !! t with
    | Some i =>
        Some {| bc_datatype := bc_datatype i; bc_md5sum := bc_md5sum i;
                count := count i + Z.of_nat (length (bearing t es)) |}
    | None => summary t es
    end.
Proof.
  intros Hh. induction es as [| e es IH]; intros g Hlen Hbound.
  - simpl. unfold summary. simpl.
    destruct (g_content g !! t) as [i |]; [| reflexivity].
    destruct i. simpl. rewrite Z.add_0_r. reflexivity.
  - cbn [scan_bag]. rewrite Hh. cbn [length] in Hlen, Hbound.
    unfold summary. rewrite bearing_cons.
    destruct (String.eqb_spec (topic e) t) as [Heq | Hne].
    + subst t. rewrite IH.
      * unfold checkFile. cbn [g_content].
        destruct (g_content g !! topic e) as [i |] eqn:Hi.
        -- rewrite lookup_insert_eq. cbn [bc_datatype bc_md5sum count].
           destruct (Hbound i eq_refl) as [Hpos Hlt].
           rewrite to_int32_small by lia.
           f_equal. f_equal. cbn [length]. lia.
        -- rewrite lookup_insert_eq. cbn [bc_datatype bc_md5sum count].
           f_equal. f_equal. cbn [length]. lia.
      * lia.
      * intros i. unfold checkFile. cbn [g_content].
        destruct (g_content g !! topic e) as [i0 |] eqn:Hi;
          rewrite lookup_insert_eq; intros Hi'; inversion Hi'; subst i;
          cbn [count].
        -- destruct (Hbound i0 eq_refl) as [Hpos Hlt].
           rewrite to_int32_small by lia. lia.
        -- lia.
    + assert (Hsame : g_content (checkFile g (topic e) e (play_time p e) (record_time e))
                        !! t = g_content g !! t).
      { unfold checkFile. cbn [g_content].
        destruct (g_content g !! topic e); apply lookup_insert_ne; exact Hne. }
      rewrite IH.
      * rewrite Hsame. reflexivity.
      * lia.
      * intros i Hi. rewrite Hsame in Hi. destruct (Hbound i Hi). lia.
Qed.

(* g_end_time after the scan: the play time of the last envelope. *)
Lemma scan_bag_end_time (p : Player) :
  p_handler p = true ->
  forall es g,
    g_end_time (scan_bag p es g) =
    match last (map (play_time p) es) with
    | Some t => to_uint64 t
    | None => g_end_time g
    end.
Proof.
  intros Hh. induction es as [| e es IH]; intros g; [reflexivity |].
  cbn [scan_bag map]. rewrite Hh, IH.
  destruct es as [| e' es]; [reflexivity |].
  cbn [map last].
  destruct (last (play_time p e' :: map (play_time p) es)) eqn:Elast; [reflexivity |].
  apply last_None in Elast. discriminate.
Qed.

Lemma last_map_play (f : Envelope -> Z) (es : list Envelope) :
  last (map f es) = match last es with Some e => Some (f e) | None => None end.
Proof.
  induction es as [| e [| e' es] IH]; [reflexivity | reflexivity |].
  exact IH.
Qed.

Lemma Forall_last (P : Envelope -> Prop) (es : list Envelope) (e : Envelope) :
  Forall P es -> last es = Some e -> P e.
Proof.
  induction es as [| x [| y es] IH]; intros HP Hl.
  - discriminate.
  - inversion Hl; subst. inversion HP; assumption.
  - apply IH; [inversion HP; assumption | exact Hl].
Qed.

Lemma first_record_time_fits (es : list Envelope) :
  Forall fits_duration es -> 0 <= first_record_time es < 2 ^ 31 * 1000000000.
Proof.
  intros HP. destruct es as [| e es]; simpl; [lia |].
  inversion HP as [| ? ? He _]; subst. exact He.
Qed.

(* The scan of an opened bag by check mode. *)
Lemma scan_opened_bag (p : Player) (es : list Envelope) :
  p_handler p = true ->
  p_wall_start p = 0 ->
  p_time_scale p = 1%Q ->
  p_shift p = 0 ->
  p_first_record_time p = first_record_time es ->
  Forall fits_duration es ->
  Z.of_nat (length es) < 2 ^ 31 ->
  let g := scan_bag p es initial_globals in
  (forall t, g_content g !! t = summary t es) /\
  to_int64 (p_first_record_time p) = first_record_time es /\
  to_int64 (g_end_time g) = span es /\
  to_int64 (to_uint64 (g_end_time g + p_first_record_time p))
    = first_record_time es + span es.
Proof.
  intros Hh Hs Hscale Hshift Hfirst Hfit Hlen g.
  pose proof (first_record_time_fits es Hfit) as Hf.
  assert (Hend : g_end_time g = to_uint64 (span es)).
  { subst g. rewrite scan_bag_end_time by exact Hh. rewrite last_map_play.
    unfold span. destruct (last es) as [e |]; [| reflexivity].
    rewrite play_time_check by assumption. rewrite Hfirst. reflexivity. }
  assert (Hspan : - 2 ^ 62 < span es < 2 ^ 62).
  { unfold span. destruct (last es) as [e |] eqn:El; [| lia].
    pose proof (Forall_last _ _ _ Hfit El) as He. unfold fits_duration in He. lia. }
  destruct (report_times (first_record_time es) (span es)) as (R1 & R2 & R3);
    [lia | exact Hspan |].
  split; [| rewrite Hend, Hfirst; repeat split; assumption].
  intros t. subst g. rewrite scan_bag_content.
  - simpl. rewrite lookup_empty. reflexivity.
  - exact Hh.
  - exact Hlen.
  - simpl. rewrite lookup_empty. discriminate.
Qed.

(* What the summary holds for the topic of an envelope of the bag. *)
Lemma summary_member (es : list Envelope) (e : Envelope) :
  In e es ->
  exists i,
    summary (topic e) es = Some i /\
    count i = Z.of_nat (length (bearing (topic e) es)) /\
    ((forall e', In e' es -> topic e' = topic e ->
                 datatype e' = datatype e /\ md5sum e' = md5sum e) ->
     bc_datatype i = datatype e /\ bc_md5sum i = md5sum e).
Proof.
  intros Hin. unfold summary.
  assert (Hb : In e (bearing (topic e) es)).
  { unfold bearing. apply List.filter_In. split; [exact Hin | apply String.eqb_refl]. }
  destruct (bearing (topic e) es) as [| e0 rest] eqn:Eb; [destruct Hb |].
  eexists. split; [reflexivity |]. split; [reflexivity |].
  intros Hsame. cbn [bc_datatype bc_md5sum].
  assert (H0 : In e0 (bearing (topic e) es)) by (rewrite Eb; left; reflexivity).
  unfold bearing in H0. apply List.filter_In in H0. destruct H0 as [H0in H0t].
  apply String.eqb_eq in H0t. apply Hsame; assumption.
Qed.

(** C2: for every run of check mode on a single bag (options scanned to the
    end, one bag named), main returns 0 after printing one report.  Its
    topics map every topic name t to the data type and MD5 sum of the first
    envelope bearing t and to the number of envelopes bearing t, and hold
    no other name; so every topic name appearing in the bag is mapped to a
    count equal to the number of envelopes bearing it and, the messages of
    the topic being of one type, to their data type and MD5 sum.
    start_time is the first record time, length is the distance from the
    first to the last record time, and end_time equals start_time plus
    length.  The record times are taken to fit ros::Duration and the number
    of envelopes to fit an int; a bag that cannot be opened is reported
    like an empty one. *)
Theorem check_report (m : Machine) (argv : list string) (evs : list optev)
        (bag : string) (es : list Envelope) :
  existsb (String.eqb "-c") argv = true ->
  getopt_scan (posix m) "cahpt:q:" (tl argv) = (evs, [bag]) ->
  find decisive evs = None ->
  es = match files m bag with Some es0 => es0 | None => [] end ->
  Forall fits_duration es ->
  Z.of_nat (length es) < 2 ^ 31 ->
  exit_of (main m argv) = Exit 0 /\
  exists start_time end_time len topics opened,
    trace (world_of (main m argv))
      = [CheckReport bag start_time end_time len topics;
         PlayerOpen [bag] 0 1%Q opened] /\
    (forall t, topics !! t = summary t es) /\
    (forall e, In e es ->
       exists i,
         topics !! topic e = Some i /\
         count i = Z.of_nat (length (bearing (topic e) es)) /\
         ((forall e', In e' es -> topic e' = topic e ->
                      datatype e' = datatype e /\ md5sum e' = md5sum e) ->
          bc_datatype i = datatype e /\ bc_md5sum i = md5sum e)) /\
    start_time = first_record_time es /\
    len = span es /\
    end_time = start_time + len.
Proof.
  intros Hc Hscan Hfind Hes Hfit Hlen.
  unfold main. rewrite Hc. unfold check_bag_main.
  rewrite Hscan, check_options_find, Hfind.
  cbn [length Z.of_nat Z.ltb Z.compare Pos.of_succ_nat Pos.compare Pos.compare_cont].
  unfold player_open. cbn [read_bags].
  destruct (files m bag) as [es0 |] eqn:Hfile.
  - subst es0.
    change (merge_envelopes [] es) with es. cbn [p_opened].
    split; [reflexivity |].
    match goal with
    | |- context [scan_bag ?p es initial_globals] =>
        destruct (scan_opened_bag p es) as (Htopics & Hstart & Hspan & Hend);
          try reflexivity; try assumption
    end.
    do 5 eexists. cbn [world_of trace emit].
    split; [reflexivity |].
    split; [exact Htopics |].
    split.
    { intros e Hin. rewrite Htopics. apply summary_member. exact Hin. }
    split; [exact Hstart |]. split; [exact Hspan |].
    rewrite Hend, Hstart, Hspan. reflexivity.
  - subst es. cbn [p_opened closed_player].
    split; [reflexivity |].
    exists 0, 0, 0, ∅, false. cbn.
    split; [reflexivity |].
    split; [intros t; apply lookup_empty |].
    split; [intros e [] |].
    repeat split.
Qed.

Lemma check_report_witness :
  exit_of (main (sample_machine []) ["rosplay"; "-c"; "a.bag"]) = Exit 0 /\
  exists start_time end_time len topics opened,
    trace (world_of (main (sample_machine []) ["rosplay"; "-c"; "a.bag"]))
      = [CheckReport "a.bag" start_time end_time len topics;
         PlayerOpen ["a.bag"] 0 1%Q opened] /\
    (forall t, topics !! t = summary t sample_bag) /\
    (forall e, In e sample_bag ->
       exists i,
         topics !! topic e = Some i /\
         count i = Z.of_nat (length (bearing (topic e) sample_bag)) /\
         ((forall e', In e' sample_bag -> topic e' = topic e ->
                      datatype e' = datatype e /\ md5sum e' = md5sum e) ->
          bc_datatype i = datatype e /\ bc_md5sum i = md5sum e)) /\
    start_time = first_record_time sample_bag /\
    len = span sample_bag /\
    end_time = start_time + len.
Proof.
  apply (check_report (sample_machine []) ["rosplay"; "-c"; "a.bag"]
           [Opt "c" None] "a.bag" sample_bag).
  - reflexivity.
  - reflexivity.
  - reflexivity.
  - reflexivity.
  - repeat constructor; vm_compute; discriminate.
  - simpl. lia.
Defined.

End RosplayFacts.

(* ===================================================================== *)
(* More facts: rosdep                                                     *)
(* ===================================================================== *)
Module RosdepMore.
Import Rosdep.

(* String.append does not unfold under simpl; its two equations. *)
Lemma append_nil (b : string) : String.append EmptyString b = b.
Proof. reflexivity. Qed.

Lemma append_cons (x : ascii) (a b : string) :
  String.append (String x a) b = String x (String.append a b).
Proof. reflexivity. Qed.

Lemma append_assoc (a b c : string) :
  String.append (String.append a b) c = String.append a (String.append b c).
Proof.
  induction a as [| x a IH]; [reflexivity |].
  rewrite !append_cons, IH. reflexivity.
Qed.

Lemma append_empty_r (a : string) : String.append a EmptyString = a.
Proof.
  induction a as [| x a IH]; [reflexivity |].
  rewrite append_cons, IH. reflexivity.
Qed.

Lemma length_append (a b : string) :
  String.length (String.append a b) = (String.length a + String.length b)%nat.
Proof.
  induction a as [| x a IH]; [reflexivity |].
  rewrite append_cons. simpl. rewrite IH. reflexivity.
Qed.

Lemma substring_all (a : string) : String.substring 0 (String.length a) a = a.
Proof. induction a as [| x a IH]; simpl; [reflexivity | rewrite IH; reflexivity]. Qed.

Lemma substring_front (a b : string) :
  String.substring 0 (String.length a) (String.append a b) = a.
Proof.
  induction a as [| x a IH].
  - rewrite append_nil. destruct b; reflexivity.
  - rewrite append_cons. simpl. rewrite IH. reflexivity.
Qed.

(* The name compared with the packages is the port name grep printed. *)
Lemma port_of_port_line (port : string) : port_of_line (port_line port) = port.
Proof.
  unfold port_of_line, chop, port_line.
  assert (Hchop : String.substring 0
                    (String.length (String.append "  " (String.append port LF)) - 1)
                    (String.append "  " (String.append port LF))
                  = String.append "  " port).
  { rewrite <- append_assoc.
    replace (String.length (String.append (String.append "  " port) LF) - 1)%nat
      with (String.length (String.append "  " port)).
    - apply substring_front.
    - rewrite !length_append. simpl. lia. }
  rewrite Hchop. rewrite !append_cons, append_nil. simpl.
  rewrite Nat.sub_0_r. apply substring_all.
Qed.

Lemma add_packages_words (pkgs : list string) :
  forall bash, add_packages bash pkgs = String.append bash (package_words pkgs).
Proof.
  unfold add_packages.
  induction pkgs as [| p pkgs IH]; intros bash; cbn [fold_left package_words].
  - symmetry. apply append_empty_r.
  - rewrite IH. rewrite !append_assoc. reflexivity.
Qed.

Lemma filter_keeps_all (f : string -> bool) (l : list string) :
  (forall x, In x l -> f x = true) -> List.filter f l = l.
Proof.
  induction l as [| a l IH]; intros H; simpl; [reflexivity |].
  rewrite (H a) by (left; reflexivity).
  rewrite IH; [reflexivity |]. intros x Hx. apply H. right. exact Hx.
Qed.

Lemma erase_first_filter (x : string) (pkgs : list string) :
  List.NoDup pkgs ->
  erase_first x pkgs = List.filter (fun p => negb (String.eqb p x)) pkgs.
Proof.
  induction pkgs as [| p pkgs IH]; intros Hnd; simpl; [reflexivity |].
  inversion Hnd as [| ? ? Hnotin Hnd']; subst.
  destruct (String.eqb_spec p x) as [-> | Hne]; simpl.
  - symmetry. apply filter_keeps_all. intros y Hy.
    destruct (String.eqb_spec y x) as [-> | _]; [| reflexivity].
    exfalso. apply Hnotin. exact Hy.
  - rewrite IH by exact Hnd'. reflexivity.
Qed.

Lemma filter_NoDup (f : string -> bool) (l : list string) :
  List.NoDup l -> List.NoDup (List.filter f l).
Proof.
  induction l as [| a l IH]; intros Hnd; simpl; [constructor |].
  inversion Hnd as [| ? ? Hnotin Hnd']; subst.
  destruct (f a); [| apply IH; exact Hnd'].
  apply List.NoDup_cons; [| apply IH; exact Hnd'].
  intros Hin. apply Hnotin.
  apply List.filter_In in Hin. tauto.
Qed.

Lemma filter_filter (f g : string -> bool) (l : list string) :
  List.filter g (List.filter f l) = List.filter (fun x => (f x && g x)%bool) l.
Proof.
  induction l as [| a l IH]; simpl; [reflexivity |].
  destruct (f a); simpl; [destruct (g a); congruence | exact IH].
Qed.

(* The packages left by the scrape of the lines of the given ports. *)
Lemma scrape_filter (ports : list string) :
  forall pkgs,
    List.NoDup pkgs ->
    scrape (map port_line ports) pkgs
    = List.filter (fun p => negb (existsb (String.eqb p) ports)) pkgs.
Proof.
  unfold scrape.
  induction ports as [| port ports IH]; intros pkgs Hnd; cbn [map fold_left existsb].
  - symmetry. apply filter_keeps_all. reflexivity.
  - rewrite port_of_port_line, erase_first_filter by exact Hnd.
    rewrite IH by (apply filter_NoDup; exact Hnd).
    rewrite filter_filter. apply List.filter_ext.
    intros p. rewrite negb_orb. reflexivity.
Qed.

Lemma script_of_packages (os_name : string) (pkgs : list string) (verbatim_bash : string) :
  String.append
    match pkgs with
    | [] => bash_header
    | _ :: _ =>
        String.append
          (add_packages (String.append bash_header (install_command os_name)) pkgs)
          (String.append LF LF)
    end verbatim_bash
  = script os_name pkgs verbatim_bash.
Proof.
  unfold script. destruct pkgs as [| p pkgs]; [reflexivity |].
  rewrite add_packages_words, !append_assoc. reflexivity.
Qed.

(** X1: on an OS other than macports, generate_bash does not look at the
    `port installed` pipe and never throws: the script is the three header
    lines, then (only when there are packages) one line made of the install
    command of the OS followed by every package, each after one blank and
    in the order given, and an empty line, then verbatim_bash unchanged.
    With no packages the script is the header followed by verbatim_bash. *)
Theorem generate_bash_script (os : OS) (port_pipe : option (list string * bool))
        (pkgs : list string) (verbatim_bash : string) :
  name os <> "macports" ->
  generate_bash os port_pipe pkgs verbatim_bash
    = inl (script (name os) pkgs verbatim_bash)
  /\ generate_bash os port_pipe [] verbatim_bash
    = inl (String.append bash_header verbatim_bash).
Proof.
  intros Hne. unfold generate_bash.
  destruct (String.eqb_spec (name os) "macports") as [Heq | _]; [contradiction |].
  split; [| reflexivity].
  f_equal. apply script_of_packages.
Qed.

Lemma generate_bash_script_witness :
  generate_bash {| name := "ubuntu"; version := "8.04" |} None
                ["libfoo-dev"; "cmake"] "echo done"
  = inl (script "ubuntu" ["libfoo-dev"; "cmake"] "echo done").
Proof.
  apply (generate_bash_script {| name := "ubuntu"; version := "8.04" |} None
           ["libfoo-dev"; "cmake"] "echo done").
  simpl. discriminate.
Defined.

(** X2: on macports, when the pipe gives the lines of the installed ports
    and the package list has no duplicates, the packages installed are
    exactly the given packages that are not among the installed ports, in
    the order given; the script has no install line when all are installed.
    When popen fails, or reading stops on an error, generate_bash throws
    and no script is produced. *)
Theorem generate_bash_macports (os : OS) (ports pkgs : list string)
        (verbatim_bash : string) :
  name os = "macports" ->
  List.NoDup pkgs ->
  generate_bash os (Some (map port_line ports, false)) pkgs verbatim_bash
    = inl (script "macports"
             (List.filter (fun p => negb (existsb (String.eqb p) ports)) pkgs)
             verbatim_bash)
  /\ generate_bash os None pkgs verbatim_bash
     = inr "couldn't get the installed ports"
  /\ generate_bash os (Some (map port_line ports, true)) pkgs verbatim_bash
     = inr "error reading from port command".
Proof.
  intros Hname Hnd. unfold generate_bash. rewrite Hname.
  change (String.eqb "macports" "macports") with true. cbv iota.
  split; [| split; reflexivity].
  rewrite scrape_filter by exact Hnd.
  f_equal. apply script_of_packages.
Qed.

Lemma generate_bash_macports_witness :
  generate_bash {| name := "macports"; version := "10.5" |}
                (Some (map port_line ["cmake"; "zlib"], false))
                ["boost"; "cmake"; "wget"] "echo done"
  = inl (script "macports" ["boost"; "wget"] "echo done").
Proof.
  destruct (generate_bash_macports {| name := "macports"; version := "10.5" |}
              ["cmake"; "zlib"] ["boost"; "cmake"; "wget"] "echo done")
    as (H & _ & _).
  - reflexivity.
  - repeat (apply List.NoDup_cons; [simpl; intuition discriminate |]).
    apply List.NoDup_nil.
  - exact H.
Defined.

(** X3: an OS object built without the ROSDEP_OS_NAME override is named
    "arch", "ubuntu" or "macports" (never "unknown": the constructor throws
    instead), so generate_bash has an install command for it. *)
Theorem OS_new_known_name (env : gmap string string) (fs : FileSystem) (os : OS) :
  env !! "ROSDEP_OS_NAME" = None ->
  OS_new env fs = inl os ->
  (name os = "arch" \/ name os = "ubuntu" \/ name os = "macports") /\
  install_command (name os) <> EmptyString.
Proof.
  intros Hn. unfold OS_new, detect. rewrite Hn.
  destruct (file_exists fs "/etc/arch-release").
  { intros E; inversion E; subst. simpl. split; [tauto | discriminate]. }
  destruct (file_exists fs "/etc/issue").
  { destruct (issue_tokens fs) as [[os_name os_ver] |]; [| discriminate].
    destruct (negb (Z.eqb (issue_fclose fs) 0)); [discriminate |].
    destruct (String.eqb os_name "Ubuntu"); [| discriminate].
    intros E; inversion E; subst. simpl. split; [tauto | discriminate]. }
  destruct (file_exists fs "/usr/bin/sw_vers"); [| discriminate].
  destruct (sw_vers_pipe fs) as [[resp |] |]; try discriminate.
  intros E; inversion E; subst. simpl. split; [tauto | discriminate].
Qed.

Lemma OS_new_known_name_witness :
  (name {| name := "ubuntu"; version := "8.04" |} = "arch" \/
   name {| name := "ubuntu"; version := "8.04" |} = "ubuntu" \/
   name {| name := "ubuntu"; version := "8.04" |} = "macports") /\
  install_command (name {| name := "ubuntu"; version := "8.04" |}) <> EmptyString.
Proof.
  apply (OS_new_known_name ∅ ubuntu_files {| name := "ubuntu"; version := "8.04" |}).
  - reflexivity.
  - vm_compute. reflexivity.
Defined.

(** X4: when ROSDEP_OS_NAME is not set and /etc/arch-release does not
    exist, an /etc/issue whose first token is not "Ubuntu" (or that does
    not give two tokens) makes the constructor throw: detection does not
    go on to /usr/bin/sw_vers, which is neither probed nor run. *)
Theorem issue_stops_detection (env : gmap string string) (fs : FileSystem) :
  env !! "ROSDEP_OS_NAME" = None ->
  file_exists fs "/etc/arch-release" = false ->
  file_exists fs "/etc/issue" = true ->
  (forall os_ver, issue_tokens fs <> Some ("Ubuntu", os_ver)) ->
  (exists what, OS_new env fs = inr what /\ d_result (detect env fs) = Throw what) /\
  d_log (detect env fs)
    = [FileExists "/etc/arch-release"; FileExists "/etc/issue"; Fopen "/etc/issue"].
Proof.
  intros Hn Harch Hissue Htok. unfold OS_new, detect. rewrite Hn, Harch, Hissue.
  destruct (issue_tokens fs) as [[os_name os_ver] |].
  - destruct (negb (Z.eqb (issue_fclose fs) 0)).
    + split; [eexists; split; reflexivity | reflexivity].
    + destruct (String.eqb_spec os_name "Ubuntu") as [-> | _].
      * exfalso. apply (Htok os_ver). reflexivity.
      * split; [eexists; split; reflexivity | reflexivity].
  - split; [eexists; split; reflexivity | reflexivity].
Qed.

Lemma issue_stops_detection_witness :
  exists what, OS_new ∅ debian_files = inr what /\
               d_result (detect ∅ debian_files) = Throw what.
Proof.
  destruct (issue_stops_detection ∅ debian_files) as [H _].
  - reflexivity.
  - reflexivity.
  - reflexivity.
  - intros os_ver. simpl. discriminate.
  - exact H.
Defined.

Lemma cut4_short (os_ver : string) :
  (String.length (cut4 os_ver) <= 4)%nat /\ String.prefix (cut4 os_ver) os_ver = true.
Proof.
  unfold cut4.
  destruct os_ver as [| a [| b [| c [| d rest]]]]; simpl;
    (split;
     [ try lia
     | repeat match goal with
              | |- context [ascii_dec ?x ?x] => destruct (ascii_dec x x); [| congruence]
              end; try reflexivity ]).
  - destruct rest; simpl; lia.
  - destruct rest; reflexivity.
Qed.

(** X5: when ROSDEP_OS_NAME is not set, /etc/arch-release does not exist
    and /etc/issue starts with the tokens "Ubuntu" and os_ver, the OS is
    named "ubuntu" and its version is os_ver cut to its first four
    characters (a prefix of os_ver of length at most 4), whatever
    ROSDEP_OS_VERSION says. *)
Theorem ubuntu_version_cut (env : gmap string string) (fs : FileSystem)
        (os_ver : string) :
  env !! "ROSDEP_OS_NAME" = None ->
  file_exists fs "/etc/arch-release" = false ->
  file_exists fs "/etc/issue" = true ->
  issue_tokens fs = Some ("Ubuntu", os_ver) ->
  issue_fclose fs = 0 ->
  OS_new env fs = inl {| name := "ubuntu"; version := String.substring 0 4 os_ver |} /\
  (String.length (String.substring 0 4 os_ver) <= 4)%nat /\
  String.prefix (String.substring 0 4 os_ver) os_ver = true.
Proof.
  intros Hn Harch Hissue Htok Hclose.
  split; [| apply cut4_short].
  unfold OS_new, detect. rewrite Hn, Harch, Hissue, Htok, Hclose. reflexivity.
Qed.

Lemma ubuntu_version_cut_witness :
  OS_new ∅ ubuntu_files = inl {| name := "ubuntu"; version := "8.04" |}.
Proof.
  destruct (ubuntu_version_cut ∅ ubuntu_files "8.04.1") as [H _].
  - reflexivity.
  - reflexivity.
  - reflexivity.
  - reflexivity.
  - reflexivity.
  - exact H.
Defined.

(** X6: ROSDEP_OS_VERSION has no effect unless ROSDEP_OS_NAME is set: in an
    environment without ROSDEP_OS_NAME, detect and the constructor behave
    as in the empty environment. *)
Theorem version_needs_name (env : gmap string string) (fs : FileSystem) :
  env !! "ROSDEP_OS_NAME" = None ->
  detect env fs = detect ∅ fs /\ OS_new env fs = OS_new ∅ fs.
Proof.
  intros Hn.
  assert (Hd : detect env fs = detect ∅ fs).
  { unfold detect. rewrite Hn, lookup_empty. reflexivity. }
  split; [exact Hd |]. unfold OS_new. rewrite Hd. reflexivity.
Qed.

Lemma version_needs_name_witness :
  OS_new (<["ROSDEP_OS_VERSION" := "9.10"]> ∅) ubuntu_files = OS_new ∅ ubuntu_files.
Proof.
  destruct (version_needs_name (<["ROSDEP_OS_VERSION" := "9.10"]> ∅) ubuntu_files)
    as [_ H].
  - vm_compute. reflexivity.
  - exact H.
Defined.

(** X7: the ROSDEP_OS_NAME override is taken as it is.  When it names an OS
    that generate_bash has no install command for, the constructor still
    succeeds, and the install line of the script consists of the packages
    alone, with no command in front of them. *)
Theorem override_without_command (env : gmap string string) (fs : FileSystem)
        (n : string) (port_pipe : option (list string * bool))
        (p : string) (pkgs : list string) (verbatim_bash : string) :
  env !! "ROSDEP_OS_NAME" = Some n ->
  n <> "arch" -> n <> "ubuntu" -> n <> "macports" ->
  exists os,
    OS_new env fs = inl os /\
    name os = n /\
    generate_bash os port_pipe (p :: pkgs) verbatim_bash
      = inl (String.append bash_header
               (String.append (package_words (p :: pkgs))
                  (String.append LF (String.append LF verbatim_bash)))).
Proof.
  intros Hn Harch Hubuntu Hmac.
  exists {| name := n; version := assign "" (env !! "ROSDEP_OS_VERSION") |}.
  split; [| split].
  - unfold OS_new, detect. rewrite Hn. reflexivity.
  - reflexivity.
  - unfold generate_bash. cbn [name].
    destruct (String.eqb_spec n "macports") as [? | _]; [contradiction |].
    cbv iota. rewrite add_packages_words. unfold install_command.
    destruct (String.eqb_spec n "arch") as [? | _]; [contradiction |].
    destruct (String.eqb_spec n "ubuntu") as [? | _]; [contradiction |].
    destruct (String.eqb_spec n "macports") as [? | _]; [contradiction |].
    rewrite append_empty_r, !append_assoc. reflexivity.
Qed.

Lemma override_without_command_witness :
  exists os,
    OS_new (<["ROSDEP_OS_NAME" := "debian"]> ∅) debian_files = inl os /\
    name os = "debian" /\
    generate_bash os None ["cmake"] "echo done"
      = inl (String.append bash_header
               (String.append (package_words ["cmake"])
                  (String.append LF (String.append LF "echo done")))).
Proof.
  apply (override_without_command (<["ROSDEP_OS_NAME" := "debian"]> ∅) debian_files
           "debian" None "cmake" [] "echo done").
  - vm_compute. reflexivity.
  - discriminate.
  - discriminate.
  - discriminate.
Defined.

End RosdepMore.

(* ===================================================================== *)
(* More facts: rosplay                                                    *)
(* ===================================================================== *)
Module RosplayMore.
Import Rosplay.
Import RosplayFacts.

(* ---- main and the terminal ---- *)

Lemma check_bag_main_quiet (m : Machine) (argv : list string) :
  let r := check_bag_main m argv (initial_world m) in
  tty (world_of r) = stdin_tty m /\
  ticks (world_of r) = 0%nat /\
  node_ok (world_of r) = false /\
  existsb sets_terminal (trace (world_of r)) = false.
Proof.
  unfold check_bag_main.
  destruct (getopt_scan (posix m) "cahpt:q:" (tl argv)) as [evs operands].
  rewrite check_options_find.
  destruct (find decisive evs) as [ev |].
  - destruct (is_rejected ev); [repeat split |].
    destruct ev; repeat split.
  - destruct (1 <? Z.of_nat (length operands)); [repeat split |].
    destruct operands as [| bag operands]; [repeat split |].
    destruct (player_open m [bag] 0 1%Q). repeat split.
Qed.

(** X8: every run of main that returns leaves the terminal of stdin with
    the settings it had at the start.  Check mode does not touch the
    terminal at all (no tcsetattr), takes no clock reading and has no live
    node; outside check mode the settings are put back by the destructor
    after spin. *)
Theorem main_restores_terminal (m : Machine) (argv : list string) :
  (forall code, exit_of (main m argv) = Exit code ->
                tty (world_of (main m argv)) = stdin_tty m) /\
  (existsb (String.eqb "-c") argv = true ->
   tty (world_of (main m argv)) = stdin_tty m /\
   ticks (world_of (main m argv)) = 0%nat /\
   node_ok (world_of (main m argv)) = false /\
   existsb sets_terminal (trace (world_of (main m argv))) = false).
Proof.
  unfold main.
  destruct (existsb (String.eqb "-c") argv).
  - pose proof (check_bag_main_quiet m argv) as H. simpl in H.
    split; [intros code _; apply H | intros _; exact H].
  - split; [| discriminate].
    destruct (RosPlay_new m argv (node_create "rosplay" (emit RosInit (initial_world m))))
      as [[rp cursor] w2] eqn:Enew.
    apply RosPlay_new_terminal in Enew. destruct Enew as [_ Horig].
    destruct (spin m cursor rp w2 (stdin_keys m)) as [[[st rp'] w3] keys'] eqn:Espin.
    apply spin_frame in Espin. destruct Espin as (_ & _ & F3 & _).
    destruct st; [| discriminate].
    intros code _. simpl. rewrite F3, Horig. reflexivity.
Qed.

Lemma main_restores_terminal_witness :
  tty (world_of (main (sample_machine []) ["rosplay"; "-a"; "a.bag"])) = cooked_tty.
Proof.
  destruct (main_restores_terminal (sample_machine []) ["rosplay"; "-a"; "a.bag"])
    as [H _].
  apply (H 0). vm_compute. reflexivity.
Defined.

(* ---- runs the constructor stops ---- *)

Lemma ctor_options_node :
  forall evs rp time w,
    match ctor_options evs rp time w with
    | inl (_, _, w') => node_ok w' = (node_ok w && negb (existsb is_c_opt evs))%bool
    | inr (_, w') => node_ok w' = false
    end.
Proof.
  induction evs as [| ev evs IH]; intros rp time w.
  - simpl. rewrite andb_true_r. reflexivity.
  - destruct ev as [c optarg | c]; [| reflexivity].
    simpl. unfold is_c_opt at 1.
    opt_cases; simpl;
      try match goal with
          | |- context [ctor_options evs ?r ?t ?x] =>
              specialize (IH r t x);
              destruct (ctor_options evs r t x) as [[[rp' time'] w'] | [rp' w']];
              simpl in IH; rewrite ?andb_false_r in *; exact IH
          end.
    reflexivity.
Qed.

(* The world main hands to the constructor. *)
Lemma fresh_world_trace (m : Machine) :
  let w := tcsetattr (raw_flags (tty (node_create "rosplay" (emit RosInit (initial_world m)))))
             (node_create "rosplay" (emit RosInit (initial_world m))) in
  existsb opens_bag (trace w) = false /\ touched (trace w) = [] /\
  stderr_lines (trace w) = [].
Proof. repeat split. Qed.

(** X9: outside check mode, when getopt meets -h or an option it does not
    know (or one that lacks its argument), the constructor prints the help
    or the usage line and shuts the node down at once: no bag is opened,
    nothing is advertised or published whatever bags are named, and main
    returns 0. *)
Theorem help_stops_player (m : Machine) (argv : list string)
        (evs : list optev) (bags : list string) (ev : optev) :
  existsb (String.eqb "-c") argv = false ->
  getopt_scan (posix m) "ncahpb:r:s:t:q:" (tl argv) = (evs, bags) ->
  find is_help evs = Some ev ->
  exit_of (main m argv) = Exit 0 /\
  node_ok (world_of (main m argv)) = false /\
  existsb opens_bag (trace (world_of (main m argv))) = false /\
  touched (trace (world_of (main m argv))) = [] /\
  In usage_text (stderr_lines (trace (world_of (main m argv)))).
Proof.
  intros Hc Hscan Hfind. unfold main. rewrite Hc.
  unfold RosPlay_new. rewrite Hscan.
  destruct (fresh_world_trace m) as (Hopen0 & Htouch0 & _). simpl in Hopen0, Htouch0.
  match goal with
  | |- context [ctor_options evs ?r ?t ?x] =>
      pose proof (ctor_options_run evs r t x) as Hrun;
      destruct (ctor_options evs r t x) as [[[rp time] w1] | [rp w1]]
  end.
  - destruct Hrun as (Hnone & _). congruence.
  - destruct Hrun as (_ & Hok & _ & Husage & Hopen & Htouch).
    unfold spin. rewrite Hok. simpl. rewrite Hopen, Htouch.
    repeat split; assumption.
Qed.

Lemma help_stops_player_witness :
  exit_of (main (sample_machine []) ["rosplay"; "-z"; "a.bag"]) = Exit 0 /\
  touched (trace (world_of (main (sample_machine []) ["rosplay"; "-z"; "a.bag"]))) = [].
Proof.
  destruct (help_stops_player (sample_machine []) ["rosplay"; "-z"; "a.bag"]
              [BadOpt "z"] ["a.bag"] (BadOpt "z") eq_refl eq_refl eq_refl)
    as (He & _ & _ & Ht & _).
  split; assumption.
Defined.

(** X10: outside check mode, when the options are scanned to the end and
    no bag is named, the constructor prints "You must specify at least one
    bagfile to play from.", the usage line and the ten help lines (and
    nothing else on stderr), shuts the node down and opens nothing; nothing
    is advertised or published and main returns 0. *)
Theorem no_bag_is_refused (m : Machine) (argv : list string) (evs : list optev) :
  existsb (String.eqb "-c") argv = false ->
  getopt_scan (posix m) "ncahpb:r:s:t:q:" (tl argv) = (evs, []) ->
  find is_help evs = None ->
  exit_of (main m argv) = Exit 0 /\
  node_ok (world_of (main m argv)) = false /\
  existsb opens_bag (trace (world_of (main m argv))) = false /\
  touched (trace (world_of (main m argv))) = [] /\
  rev (stderr_lines (trace (world_of (main m argv))))
    = "You must specify at least one bagfile to play from." :: usage_text :: help_text.
Proof.
  intros Hc Hscan Hfind. unfold main. rewrite Hc.
  unfold RosPlay_new. rewrite Hscan.
  match goal with
  | |- context [ctor_options evs ?r ?t ?x] =>
      pose proof (ctor_options_run evs r t x) as Hrun;
      destruct (ctor_options evs r t x) as [[[rp time] w1] | [rp w1]]
  end.
  - destruct Hrun as (_ & _ & Hopen & Htouch & Herr).
    simpl in Hopen, Htouch, Herr.
    simpl. rewrite Hopen, Htouch, Herr. repeat split.
  - destruct Hrun as (Hsome & _). contradiction.
Qed.

Lemma no_bag_is_refused_witness :
  exit_of (main (sample_machine []) ["rosplay"; "-p"]) = Exit 0 /\
  rev (stderr_lines (trace (world_of (main (sample_machine []) ["rosplay"; "-p"]))))
    = "You must specify at least one bagfile to play from." :: usage_text :: help_text.
Proof.
  destruct (no_bag_is_refused (sample_machine []) ["rosplay"; "-p"]
              [Opt "p" None] eq_refl eq_refl eq_refl)
    as (He & _ & _ & _ & Herr).
  split; assumption.
Defined.

(** X11: a -c that reaches the constructor (grouped with other options, as
    in -nc, so that main did not select check mode) shuts the node down
    during option parsing.  Whatever else is on the command line, nothing
    is then advertised or published, the keyboard is not read, and main
    returns 0. *)
Theorem grouped_c_plays_nothing (m : Machine) (argv : list string)
        (evs : list optev) (bags : list string) :
  existsb (String.eqb "-c") argv = false ->
  getopt_scan (posix m) "ncahpb:r:s:t:q:" (tl argv) = (evs, bags) ->
  existsb is_c_opt evs = true ->
  exit_of (main m argv) = Exit 0 /\
  node_ok (world_of (main m argv)) = false /\
  touched (trace (world_of (main m argv))) = [].
Proof.
  intros Hc Hscan Hcopt. unfold main. rewrite Hc.
  unfold RosPlay_new. rewrite Hscan.
  match goal with
  | |- context [ctor_options evs ?r ?t ?x] =>
      pose proof (ctor_options_run evs r t x) as Hrun;
      pose proof (ctor_options_node evs r t x) as Hnode;
      destruct (ctor_options evs r t x) as [[[rp time] w1] | [rp w1]]
  end.
  - destruct Hrun as (_ & _ & _ & Htouch & _). simpl in Htouch.
    rewrite Hcopt, andb_false_r in Hnode.
    destruct bags as [| b bags].
    { simpl. rewrite Htouch. repeat split. }
    destruct (bag_time_ rp && (1 <? Z.of_nat (length (b :: bags))))%bool.
    { simpl. rewrite Htouch. repeat split. }
    unfold emit_if, getSysTime.
    destruct (player_open m (b :: bags) _ _) as [pl cursor].
    destruct rp; simpl in *.
    split_ifs; unfold spin; simpl; rewrite Hnode; simpl; rewrite ?Htouch;
      repeat split; assumption.
  - destruct Hrun as (_ & Hok & _ & _ & _ & Htouch). simpl in Htouch.
    unfold spin. rewrite Hok. simpl. rewrite Htouch. repeat split. exact Hok.
Qed.

Lemma grouped_c_plays_nothing_witness :
  exit_of (main (sample_machine []) ["rosplay"; "-nc"; "a.bag"]) = Exit 0 /\
  node_ok (world_of (main (sample_machine []) ["rosplay"; "-nc"; "a.bag"])) = false /\
  touched (trace (world_of (main (sample_machine []) ["rosplay"; "-nc"; "a.bag"]))) = [].
Proof.
  apply (grouped_c_plays_nothing (sample_machine []) ["rosplay"; "-nc"; "a.bag"]
           [Opt "n" None; Opt "c" None] ["a.bag"]); reflexivity.
Defined.

(* ---- the handler and the keyboard ---- *)

Lemma doPublish_without_keyboard m rp w keys name msg pt rt st rp' w' keys' :
  at_once_ rp = true \/ node_ok w = false ->
  doPublish m rp w keys name msg pt rt = (st, rp', w', keys') ->
  st = Returned /\ keys' = keys.
Proof.
  intros Hmode. unfold doPublish, advertise, emit_if. destruct rp; simpl in *.
  destruct Hmode as [Ha | Hok]; subst.
  - split_ifs; intros E; inversion E; subst; split; reflexivity.
  - split_ifs;
      try match goal with
          | H : (_ && node_ok w)%bool = true |- _ =>
              rewrite Hok, andb_false_r in H; discriminate H
          end;
      intros E; inversion E; subst; split; reflexivity.
Qed.

Lemma play_loop_at_once m :
  forall cursor rp w keys st rp' w' keys',
    at_once_ rp = true ->
    play_loop m cursor rp w keys = (st, rp', w', keys') ->
    st = Returned /\ keys' = keys.
Proof.
  induction cursor as [| e cursor IH]; intros rp w keys st rp' w' keys' Ha E; simpl in E.
  - inversion E; subst. split; reflexivity.
  - destruct (node_ok w); [| inversion E; subst; split; reflexivity].
    destruct (p_handler (player_ rp)); [| eapply IH; eassumption].
    destruct (doPublish m rp w keys (topic e) e (play_time (player_ rp) e)
                        (record_time e)) as [[[st1 rp1] w1] keys1] eqn:Ed.
    pose proof Ed as Ed'.
    apply doPublish_without_keyboard in Ed; [| left; exact Ha].
    destruct Ed as [-> ->].
    apply doPublish_sends in Ed'. destruct Ed' as ((_ & _ & _ & Fa & _) & _).
    eapply IH; [| exact E]. congruence.
Qed.

(** X12: doPublish reads the keyboard only when the player is not in
    all-at-once mode and the node is ok: with -a, or once the node is shut
    down, the call returns without taking any result of getchar, even when
    paused_ is set.  Hence in all-at-once mode spin's loop always comes
    back, with the keyboard input untouched. *)
Theorem all_at_once_ignores_keyboard (m : Machine) :
  (forall rp w keys name msg pt rt st rp' w' keys',
     at_once_ rp = true \/ node_ok w = false ->
     doPublish m rp w keys name msg pt rt = (st, rp', w', keys') ->
     st = Returned /\ keys' = keys) /\
  (forall cursor rp w keys st rp' w' keys',
     at_once_ rp = true ->
     play_loop m cursor rp w keys = (st, rp', w', keys') ->
     st = Returned /\ keys' = keys).
Proof.
  split.
  - intros. eapply doPublish_without_keyboard; eassumption.
  - intros. eapply play_loop_at_once; eassumption.
Qed.

Lemma all_at_once_ignores_keyboard_witness :
  fst (fst (fst (play_loop (sample_machine []) sample_bag
                           (set_at_once true paused_player) live_world [32; 115])))
    = Returned /\
  snd (play_loop (sample_machine []) sample_bag
                 (set_at_once true paused_player) live_world [32; 115])
    = [32; 115].
Proof.
  destruct (all_at_once_ignores_keyboard (sample_machine [])) as [_ H].
  destruct (play_loop (sample_machine []) sample_bag
                      (set_at_once true paused_player) live_world [32; 115])
    as [[[st rp'] w'] keys'] eqn:E.
  apply (H sample_bag (set_at_once true paused_player) live_world [32; 115]
           st rp' w' keys'); [reflexivity | exact E].
Defined.

Lemma play_loop_in_order m :
  forall cursor rp w keys st rp' w' keys',
    play_loop m cursor rp w keys = (st, rp', w', keys') ->
    exists l,
      publishes (trace w') = rev l ++ publishes (trace w) /\
      sublist l (map (fun e => (topic e, e)) cursor).
Proof.
  induction cursor as [| e cursor IH]; intros rp w keys st rp' w' keys' E; simpl in E.
  - inversion E; subst. exists []. split; [reflexivity | constructor].
  - destruct (node_ok w);
      [| inversion E; subst; exists []; split; [reflexivity | apply sublist_nil_l]].
    destruct (p_handler (player_ rp)).
    2:{ destruct (IH _ _ _ _ _ _ _ E) as (l & Hl & Hsub).
        exists l. split; [exact Hl | apply sublist_cons; exact Hsub]. }
    destruct (doPublish m rp w keys (topic e) e (play_time (player_ rp) e)
                        (record_time e)) as [[[st1 rp1] w1] keys1] eqn:Ed.
    apply doPublish_sends in Ed. destruct Ed as (_ & Hdrop & Hsend).
    destruct (Z.lt_ge_cases (play_time (player_ rp) e) (requested_start_time_ rp))
      as [Hlt | Hge].
    + destruct (Hdrop Hlt) as (-> & -> & -> & ->).
      destruct (IH _ _ _ _ _ _ _ E) as (l & Hl & Hsub).
      exists l. split; [exact Hl | apply sublist_cons; exact Hsub].
    + destruct (Hsend Hge) as (Hpub & _).
      destruct st1.
      * destruct (IH _ _ _ _ _ _ _ E) as (l & Hl & Hsub).
        exists ((topic e, e) :: l). split.
        -- rewrite Hl, Hpub. simpl. rewrite <- app_assoc. reflexivity.
        -- apply sublist_skip. exact Hsub.
      * inversion E; subst. exists []. split; [exact Hpub | apply sublist_nil_l].
Qed.

(** X13: whatever is typed and whatever the clock does, the messages spin
    publishes are envelopes of the bag in the order the player reads them:
    the sequence published during a run is a subsequence of the envelopes
    to be read, so nothing is published twice or out of order. *)
Theorem spin_publishes_in_order (m : Machine) (cursor : list Envelope)
        (rp : RosPlay) (w : World) (keys : list Z)
        (st : status) (rp' : RosPlay) (w' : World) (keys' : list Z) :
  spin m cursor rp w keys = (st, rp', w', keys') ->
  exists l,
    rev (publishes (trace w')) = rev (publishes (trace w)) ++ l /\
    sublist l (map (fun e => (topic e, e)) cursor).
Proof.
  unfold spin. intros E.
  destruct (node_ok w).
  - destruct (play_loop m cursor rp (emit_if (negb (quiet_ rp)) (Stdout "") w) keys)
      as [[[st1 rp1] w1] keys1] eqn:Ep.
    apply play_loop_in_order in Ep. destruct Ep as (l & Hl & Hsub).
    assert (Hw : publishes (trace (emit_if (negb (quiet_ rp)) (Stdout "") w))
                 = publishes (trace w))
      by (unfold emit_if; destruct (negb (quiet_ rp)); reflexivity).
    exists l. split; [| exact Hsub].
    destruct st1; inversion E; subst; simpl;
      rewrite Hl, Hw, rev_app_distr, rev_involutive; reflexivity.
  - inversion E; subst. exists []. split; [rewrite app_nil_r; reflexivity |].
    apply sublist_nil_l.
Qed.

Lemma spin_publishes_in_order_witness :
  exists l,
    rev (publishes (trace (snd (fst (spin (sample_machine []) sample_bag paused_player
                                          live_world [115; 32; -1; 115])))))
      = rev (publishes (trace live_world)) ++ l /\
    sublist l (map (fun e => (topic e, e)) sample_bag).
Proof.
  destruct (spin (sample_machine []) sample_bag paused_player live_world [115; 32; -1; 115])
    as [[[st rp'] w'] keys'] eqn:E.
  apply (spin_publishes_in_order _ _ _ _ _ _ _ _ _ E).
Defined.

(* ---- pause, step and resume ---- *)



(* ---- check mode: the counts ---- *)

Lemma count_sum_comm (j1 j2 : string) (z1 z2 : BagContent) (y : Z) :
  count z1 + (count z2 + y) = count z2 + (count z1 + y).
Proof. lia. Qed.

Lemma total_insert_new (content : gmap string BagContent) (k : string) (x : BagContent) :
  content !! k = None ->
  total_count (<[k := x]> content) = count x + total_count content.
Proof.
  intros Hk. unfold total_count.
  apply (map_fold_insert_L (fun _ i acc => count i + acc)); [| exact Hk].
  intros. apply count_sum_comm; assumption.
Qed.

Lemma total_lookup (content : gmap string BagContent) (k : string) (x : BagContent) :
  content !! k = Some x ->
  total_count content = count x + total_count (delete k content).
Proof.
  intros Hk. unfold total_count.
  apply (map_fold_delete_L (fun _ i acc => count i + acc)); [| exact Hk].
  intros. apply count_sum_comm; assumption.
Qed.

Lemma total_insert_old (content : gmap string BagContent) (k : string) (y : BagContent) :
  total_count (<[k := y]> content) = count y + total_count (delete k content).
Proof.
  rewrite <- insert_delete_eq. apply total_insert_new. apply lookup_delete_eq.
Qed.

Lemma total_nonneg (content : gmap string BagContent) :
  map_Forall (fun _ i => 0 < count i) content -> 0 <= total_count content.
Proof.
  unfold total_count.
  apply (map_fold_weak_ind
           (fun r (c : gmap string BagContent) =>
              map_Forall (fun _ i => 0 < count i) c -> 0 <= r)).
  - intros _. lia.
  - intros k x c r Hk IH Hall.
    apply map_Forall_insert in Hall; [| exact Hk].
    destruct Hall as [Hx Hc]. specialize (IH Hc). lia.
Qed.

Lemma scan_bag_total (p : Player) :
  p_handler p = true ->
  forall es g,
    map_Forall (fun _ i => 0 < count i) (g_content g) ->
    total_count (g_content g) + Z.of_nat (length es) < 2 ^ 31 ->
    total_count (g_content (scan_bag p es g))
    = total_count (g_content g) + Z.of_nat (length es).
Proof.
  intros Hh.
  assert (Hpow : 2 ^ 31 = 2147483648) by reflexivity.
  induction es as [| e es IH]; intros g Hpos Hlt.
  - simpl. lia.
  - cbn [scan_bag]. rewrite Hh. cbn [length] in Hlt |- *.
    pose proof (total_nonneg _ Hpos) as Hnn.
    unfold checkFile in *.
    destruct (g_content g !! topic e) as [i |] eqn:Hi.
    + pose proof (total_lookup _ _ _ Hi) as Ht.
      assert (Hrest : map_Forall (fun _ i0 => 0 < count i0) (delete (topic e) (g_content g)))
        by (apply map_Forall_delete; exact Hpos).
      pose proof (total_nonneg _ Hrest) as Hnn'.
      pose proof (Hpos _ _ Hi) as Hci. simpl in Hci.
      rewrite IH; cbn [g_content].
      * rewrite total_insert_old. cbn [count].
        rewrite to_int32_small by lia. lia.
      * rewrite <- insert_delete_eq. apply map_Forall_insert; [apply lookup_delete_eq |].
        split; [| exact Hrest]. cbn [count]. rewrite to_int32_small by lia. lia.
      * rewrite total_insert_old. cbn [count].
        rewrite to_int32_small by lia. lia.
    + rewrite IH; cbn [g_content].
      * rewrite total_insert_new by exact Hi. cbn [count]. lia.
      * apply map_Forall_insert; [exact Hi |]. split; [cbn [count]; lia | exact Hpos].
      * rewrite total_insert_new by exact Hi. cbn [count]. lia.
Qed.

(** X15: after check mode has scanned a bag with checkFile as the handler,
    the counts of the report add up to the number of envelopes of the bag:
    every envelope is counted once, under exactly one topic (for bags of
    fewer than 2^31 envelopes, so that no int count wraps). *)
Theorem counts_add_up (p : Player) (es : list Envelope) :
  p_handler p = true ->
  Z.of_nat (length es) < 2 ^ 31 ->
  total_count (g_content (scan_bag p es initial_globals)) = Z.of_nat (length es).
Proof.
  intros Hh Hlen.
  rewrite scan_bag_total.
  - reflexivity.
  - exact Hh.
  - apply map_Forall_empty.
  - simpl. exact Hlen.
Qed.

Lemma counts_add_up_witness :
  total_count
    (g_content (scan_bag (addHandler (fst (player_open (sample_machine []) ["a.bag"] 0 1%Q)))
                         sample_bag initial_globals))
  = 3.
Proof.
  apply (counts_add_up (addHandler (fst (player_open (sample_machine []) ["a.bag"] 0 1%Q)))
           sample_bag).
  - reflexivity.
  - simpl. lia.
Defined.

(* ---- the bag time publisher ---- *)

Lemma on_space_no_bag_time m rp w pt rt rp1 w1 pt1 :
  bag_time_ rp = false ->
  on_space m rp w pt rt = (rp1, w1, pt1) ->
  no_bag_time rp w rp1 w1.
Proof.
  unfold on_space, no_bag_time, emit_if. destruct rp; simpl. intros ->.
  split_ifs; intros E; inversion E; subst; simpl; split; reflexivity.
Qed.

Lemma wait_loop_no_bag_time m name msg rt :
  forall keys rp w pt st rp' w' keys',
    bag_time_ rp = false ->
    wait_loop m keys rp w name msg pt rt = (st, rp', w', keys') ->
    no_bag_time rp w rp' w'.
Proof.
  induction keys as [| k keys IH]; intros rp w pt st rp' w' keys' Hb E; simpl in E.
  - inversion E; subst. split; [exact Hb | reflexivity].
  - destruct (to_char k =? 32).
    { destruct (on_space m rp w pt rt) as [[rp1 w1] pt1] eqn:Esp.
      apply on_space_no_bag_time in Esp; [| exact Hb]. destruct Esp as [Hb1 Ht1].
      apply IH in E; [| exact Hb1]. destruct E as [Hb2 Ht2].
      split; [exact Hb2 | congruence]. }
    destruct (to_char k =? 115).
    { destruct (paused_ rp).
      - inversion E; subst. unfold no_bag_time, emit_if.
        destruct rp; simpl in *. subst. split; reflexivity.
      - eapply IH; eassumption. }
    destruct (to_char k =? EOF).
    { destruct (paused_ rp).
      - apply IH in E; [| exact Hb]. exact E.
      - simpl in E. destruct (100000 <? pt - clock m (ticks w)).
        + apply IH in E; [| exact Hb]. exact E.
        + inversion E; subst. unfold no_bag_time, publish_on_time, emit_if.
          split; [exact Hb |]. split_ifs; reflexivity. }
    eapply IH; eassumption.
Qed.

Lemma doPublish_no_bag_time m rp w keys name msg pt rt st rp' w' keys' :
  bag_time_ rp = false ->
  doPublish m rp w keys name msg pt rt = (st, rp', w', keys') ->
  no_bag_time rp w rp' w'.
Proof.
  intros Hb. unfold doPublish, advertise, emit_if.
  destruct (pt <? requested_start_time_ rp).
  { intros E; inversion E; subst. split; [exact Hb | reflexivity]. }
  rewrite Hb.
  destruct (bool_decide (name ∉ advertised w)); simpl.
  - rewrite Hb. simpl.
    destruct rp; simpl in *. subst.
    destruct at_once_0; simpl.
    + intros E; inversion E; subst. split; reflexivity.
    + match goal with
      | |- context [if ?c then _ else _] => destruct c
      end.
      * intros E. apply wait_loop_no_bag_time in E; [| reflexivity]. exact E.
      * intros E; inversion E; subst. unfold no_bag_time, publish_on_time, emit_if.
        split; [reflexivity |]. split_ifs; reflexivity.
  - destruct rp; simpl in *. subst.
    destruct at_once_0; simpl.
    + intros E; inversion E; subst. split; reflexivity.
    + match goal with
      | |- context [if ?c then _ else _] => destruct c
      end.
      * intros E. apply wait_loop_no_bag_time in E; [| reflexivity]. exact E.
      * intros E; inversion E; subst. unfold no_bag_time, publish_on_time, emit_if.
        split; [reflexivity |]. split_ifs; reflexivity.
Qed.

Lemma play_loop_no_bag_time m :
  forall cursor rp w keys st rp' w' keys',
    bag_time_ rp = false ->
    play_loop m cursor rp w keys = (st, rp', w', keys') ->
    no_bag_time rp w rp' w'.
Proof.
  induction cursor as [| e cursor IH]; intros rp w keys st rp' w' keys' Hb E; simpl in E.
  - inversion E; subst. split; [exact Hb | reflexivity].
  - destruct (node_ok w); [| inversion E; subst; split; [exact Hb | reflexivity]].
    destruct (p_handler (player_ rp)); [| eapply IH; eassumption].
    destruct (doPublish m rp w keys (topic e) e (play_time (player_ rp) e)
                        (record_time e)) as [[[st1 rp1] w1] keys1] eqn:Ed.
    apply doPublish_no_bag_time in Ed; [| exact Hb]. destruct Ed as [Hb1 Ht1].
    destruct st1.
    + apply IH in E; [| exact Hb1]. destruct E as [Hb2 Ht2].
      split; [exact Hb2 | congruence].
    + inversion E; subst. split; assumption.
Qed.

Lemma ctor_options_no_bag_time :
  forall evs rp time w,
    existsb sets_bag_time evs = false ->
    match ctor_options evs rp time w with
    | inl (rp', _, w') =>
        bag_time_ rp' = bag_time_ rp /\
        existsb bag_time_event (trace w') = existsb bag_time_event (trace w)
    | inr (rp', w') =>
        bag_time_ rp' = bag_time_ rp /\
        existsb bag_time_event (trace w') = existsb bag_time_event (trace w)
    end.
Proof.
  induction evs as [| ev evs IH]; intros rp time w Hb.
  - simpl. split; reflexivity.
  - destruct ev as [c optarg | c]; [| simpl; split; reflexivity].
    simpl in Hb. apply orb_false_elim in Hb. destruct Hb as [Hc Hb].
    simpl. rewrite Hc.
    repeat match goal with
           | |- context [if is_opt c ?l then _ else _] => destruct (is_opt c l)
           end;
      try (simpl; split; reflexivity);
      match goal with
      | |- context [ctor_options evs ?r ?t ?x] =>
          specialize (IH r t x Hb);
          destruct (ctor_options evs r t x) as [[[? ?] ?] | [? ?]];
          simpl in IH; exact IH
      end.
Qed.

(** X16: without -b the bag time publisher is left alone: in a run outside
    check mode whose options hold no -b, neither the constructor nor any
    call of doPublish initialises, starts, steps or freezes the bag time or
    sets its horizon, whatever is played and typed. *)
Theorem bag_time_needs_b (m : Machine) (argv : list string)
        (evs : list optev) (bags : list string) :
  existsb (String.eqb "-c") argv = false ->
  getopt_scan (posix m) "ncahpb:r:s:t:q:" (tl argv) = (evs, bags) ->
  existsb sets_bag_time evs = false ->
  existsb bag_time_event (trace (world_of (main m argv))) = false.
Proof.
  intros Hc Hscan Hb. unfold main. rewrite Hc.
  destruct (RosPlay_new m argv (node_create "rosplay" (emit RosInit (initial_world m))))
    as [[rp cursor] w2] eqn:Enew.
  assert (Hnew : bag_time_ rp = false /\ existsb bag_time_event (trace w2) = false).
  { revert Enew. unfold RosPlay_new. rewrite Hscan.
    match goal with
    | |- context [ctor_options evs ?r ?t ?x] =>
        pose proof (ctor_options_no_bag_time evs r t x Hb) as Hbt;
        destruct (ctor_options evs r t x) as [[[rp1 time] w1] | [rp1 w1]] eqn:Ec
    end.
    - destruct Hbt as [Hbag Hbt]. simpl in Hbag, Hbt.
      destruct bags as [| b bags].
      { intros E; inversion E; subst. simpl. split; assumption. }
      rewrite ?Hbag. simpl.
      unfold emit_if. rewrite ?Hbag.
      destruct (player_open m (b :: bags) _ _) as [pl cur].
      destruct rp1; simpl in *. subst.
      split_ifs; intros E; inversion E; subst; simpl; split; auto.
    - destruct Hbt as [Hbag Hbt]. simpl in Hbag, Hbt.
      intros E; inversion E; subst. split; assumption. }
  destruct Hnew as [Hrp Hw2].
  unfold spin.
  destruct (node_ok w2).
  - destruct (play_loop m cursor rp (emit_if (negb (quiet_ rp)) (Stdout "") w2)
                        (stdin_keys m)) as [[[st rp'] w3] keys'] eqn:Ep.
    apply play_loop_no_bag_time in Ep; [| exact Hrp]. destruct Ep as [_ Ht].
    assert (Hq : existsb bag_time_event
                   (trace (emit_if (negb (quiet_ rp)) (Stdout "") w2)) = false)
      by (unfold emit_if; destruct (negb (quiet_ rp)); simpl; exact Hw2).
    destruct st; simpl; congruence.
  - simpl. exact Hw2.
Qed.

Lemma bag_time_needs_b_witness :
  existsb bag_time_event
    (trace (world_of (main (sample_machine [115; 115; 115]) ["rosplay"; "-p"; "a.bag"])))
  = false.
Proof.
  apply (bag_time_needs_b (sample_machine [115; 115; 115]) ["rosplay"; "-p"; "a.bag"]
           [Opt "p" None] ["a.bag"]); reflexivity.
Defined.

End RosplayMore.
